(** * CTranslate2 Python binding: [python/translator.cc]

    A shallow embedding of the [TranslatorWrapper] class exposed to Python
    as [translator.Translator], together with the helpers that marshal
    Python objects to and from C++ vectors.  The translator pool that the
    wrapper drives ([ctranslate2/translator_pool.h]) is an interface here;
    a model of it written from the design document is given in
    [Module PoolModel]. *)

From Stdlib Require Import List String Ascii Bool Arith NArith ZArith Lia.
From Stdlib Require Import Permutation Sorted SpecFloat.
Import ListNotations.

Set Warnings "-register-all".

(** ** UTF-8 *)

(** A C++ [std::string] is a sequence of bytes, a Python [str] a sequence of
    code points; pybind11 goes from one to the other through the UTF-8
    codec of the interpreter, which is strict: no overlong form, no
    surrogate, nothing above U+10FFFF. *)

Open Scope N_scope.

Definition utf8_encode_one (c : N) : option (list N) :=
  if c <? 128 then Some [c]
  else if c <? 2048 then Some [192 + c / 64; 128 + c mod 64]
  else if c <? 65536 then
    if (55296 <=? c) && (c <? 57344) then None
    else Some [224 + c / 4096; 128 + (c / 64) mod 64; 128 + c mod 64]
  else if c <? 1114112 then
    Some [240 + c / 262144; 128 + (c / 4096) mod 64; 128 + (c / 64) mod 64;
          128 + c mod 64]
  else None.

Definition bytes_to_string (l : list N) : string :=
  string_of_list_ascii (map ascii_of_N l).

(** The bytes of a [str], when it can be encoded. *)
Fixpoint utf8_encode (cps : list N) : option string :=
  match cps with
  | [] => Some EmptyString
  | c :: rest =>
      match utf8_encode_one c, utf8_encode rest with
      | Some bytes, Some s => Some (bytes_to_string bytes ++ s)%string
      | _, _ => None
      end
  end.

Definition continuation (b : N) : bool := (128 <=? b) && (b <? 192).

Definition cons_code_point (c : N) (rest : option (list N)) : option (list N) :=
  match rest with
  | Some cps => Some (c :: cps)
  | None => None
  end.

(** The code points a byte string stands for, when it is valid UTF-8. *)
Fixpoint utf8_decode (s : string) : option (list N) :=
  match s with
  | EmptyString => Some []
  | String a0 s1 =>
      let b0 := N_of_ascii a0 in
      if b0 <? 128 then cons_code_point b0 (utf8_decode s1)
      else
        match s1 with
        | EmptyString => None
        | String a1 s2 =>
            let b1 := N_of_ascii a1 in
            if negb (continuation b1) then None
            else if (194 <=? b0) && (b0 <? 224) then
              cons_code_point ((b0 - 192) * 64 + (b1 - 128)) (utf8_decode s2)
            else
              match s2 with
              | EmptyString => None
              | String a2 s3 =>
                  let b2 := N_of_ascii a2 in
                  if negb (continuation b2) then None
                  else if (224 <=? b0) && (b0 <? 240) then
                    let c := (b0 - 224) * 4096 + (b1 - 128) * 64 + (b2 - 128) in
                    if (c <? 2048) || ((55296 <=? c) && (c <? 57344)) then None
                    else cons_code_point c (utf8_decode s3)
                  else
                    match s3 with
                    | EmptyString => None
                    | String a3 s4 =>
                        let b3 := N_of_ascii a3 in
                        if negb (continuation b3) then None
                        else if (240 <=? b0) && (b0 <? 245) then
                          let c := (b0 - 240) * 262144 + (b1 - 128) * 4096
                                   + (b2 - 128) * 64 + (b3 - 128) in
                          if (c <? 65536) || (1114112 <=? c) then None
                          else cons_code_point c (utf8_decode s4)
                        else None
                    end
              end
        end
  end.

Close Scope N_scope.

(** The code points of an ASCII text written in this file: one per
    character. *)
Definition code_points (s : string) : list N :=
  map N_of_ascii (list_ascii_of_string s).

(** ** Python objects and C++ exceptions *)

(** The Python values that reach the binding.  A [str] is its code points,
    a [bytes] object its bytes; [PyIterator] is an iterator or a generator
    over the given items, which can be iterated and has no length.  A C++
    [float] and a Python [float] are both carried as an IEEE value: the
    wrapper only moves them. *)
Inductive pyobj : Type :=
| PyNone
| PyBool (b : bool)
| PyInt (z : Z)
| PyFloat (f : spec_float)
| PyUnicode (cps : list N)
| PyBytes (b : string)
| PyList (l : list pyobj)
| PyTuple (l : list pyobj)
| PyDict (kv : list (pyobj * pyobj))
| PyIterator (items : list pyobj).

(** The [str] whose characters are those of the ASCII text [s]. *)
Definition PyStr (s : string) : pyobj := PyUnicode (code_points s).

(** What a call can throw.  [invalid_argument] is [std::invalid_argument];
    [type_error] is the [pybind11::error_already_set] raised by [py::len] or
    by iteration over an object that supports neither; [cast_error] is
    [pybind11::cast_error]; [unicode_decode_error] is what the construction
    of a [py::str] from bytes that are not UTF-8 raises.  [engine_fault]
    and [io_fault] are the faults of the pool.  [undefined] is no
    exception: it marks an [operator[]] past the end of a vector, of which
    C++ says nothing. *)
Inductive exn : Type :=
| invalid_argument (what : string)
| type_error
| cast_error
| unicode_decode_error
| undefined
| engine_fault (cause : string)
| io_fault.

Inductive res (A : Type) : Type :=
| Ok (a : A)
| Raise (e : exn).

Arguments Ok {A} a.
Arguments Raise {A} e.

Definition bind {A B : Type} (c : res A) (k : A -> res B) : res B :=
  match c with
  | Ok a => k a
  | Raise e => Raise e
  end.

Declare Scope res_scope.
Delimit Scope res_scope with res.
Notation "x <- c ;; k" := (bind c (fun x => k))
  (at level 61, c at next level, right associativity) : res_scope.
Open Scope res_scope.

(** [handle.is(py::none())] *)
Definition is_none (o : pyobj) : bool :=
  match o with
  | PyNone => true
  | _ => false
  end.

(** [py::len]; that of a [str] counts code points. *)
Definition py_len (o : pyobj) : res nat :=
  match o with
  | PyUnicode cps => Ok (List.length cps)
  | PyBytes b => Ok (String.length b)
  | PyList l => Ok (List.length l)
  | PyTuple l => Ok (List.length l)
  | PyDict kv => Ok (List.length kv)
  | _ => Raise type_error
  end.

(** The items a range-based [for] over a [py::object] visits: the
    one-character strings of a [str], the numbers of a [bytes], the keys of
    a dictionary. *)
Definition py_iter (o : pyobj) : res (list pyobj) :=
  match o with
  | PyUnicode cps => Ok (map (fun c => PyUnicode [c]) cps)
  | PyBytes b => Ok (map (fun a => PyInt (Z.of_N (N_of_ascii a))) (list_ascii_of_string b))
  | PyList l => Ok l
  | PyTuple l => Ok l
  | PyDict kv => Ok (map fst kv)
  | PyIterator items => Ok items
  | _ => Raise type_error
  end.

(** [handle.cast<std::string>()]: the UTF-8 bytes of a [str], the bytes of
    a [bytes]. *)
Definition cast_string (o : pyobj) : res string :=
  match o with
  | PyUnicode cps =>
      match utf8_encode cps with
      | Some s => Ok s
      | None => Raise cast_error
      end
  | PyBytes b => Ok b
  | _ => Raise cast_error
  end.

(** [STR_TYPE(x)], which is [py::str(x)]. *)
Definition STR_TYPE (x : string) : res pyobj :=
  match utf8_decode x with
  | Some cps => Ok (PyUnicode cps)
  | None => Raise unicode_decode_error
  end.

(** A loop that appends what [f] makes of each element and ends at the
    first failure. *)
Fixpoint for_each {A B : Type} (f : A -> res B) (l : list A) : res (list B) :=
  match l with
  | [] => Ok []
  | x :: rest =>
      y <- f x ;;
      ys <- for_each f rest ;;
      Ok (y :: ys)
  end.

(** ** Marshalling helpers *)

(** [std_vector_to_py_list], specialised at [std::string] and at [float]. *)
Definition std_vector_to_py_list_string (v : list string) : res pyobj :=
  l <- for_each STR_TYPE v ;;
  Ok (PyList l).

Definition std_vector_to_py_list_float (v : list spec_float) : pyobj :=
  PyList (map PyFloat v).

(** The loop of [py_list_to_std_vector]: one [emplace_back] per item, the
    first failing cast ends the call. *)
Fixpoint cast_items (items : list pyobj) : res (list string) :=
  match items with
  | [] => Ok []
  | s :: rest =>
      x <- cast_string s ;;
      v <- cast_items rest ;;
      Ok (x :: v)
  end.

Definition py_list_to_std_vector (l : pyobj) : res (list string) :=
  _ <- py_len l ;;
  items <- py_iter l ;;
  cast_items items.

(** The loop of [batch_to_vector]. *)
Fixpoint batch_items (items : list pyobj) (optional : bool) : res (list (list string)) :=
  match items with
  | [] => Ok []
  | handle :: rest =>
      x <- (if is_none handle
            then if optional
                 then Ok []
                 else Raise (invalid_argument "Invalid None value in input list")
            else py_list_to_std_vector handle) ;;
      v <- batch_items rest optional ;;
      Ok (x :: v)
  end.

Definition batch_to_vector (l : pyobj) (optional : bool) : res (list (list string)) :=
  if is_none l then Ok []
  else
    _ <- py_len l ;;
    items <- py_iter l ;;
    batch_items items optional.

(** ** The library types the wrapper uses *)

(** Modelled from the spec: [ctranslate2::TranslationOptions], whose
    declaration is in a header that is not among the sources.  The fields
    are the Decoding Options of the design document, which are the fields
    the wrapper assigns.  [size_t] fields are [N]; the wrapper does no
    arithmetic on them.  The field [num_hypotheses] is spelled
    [num_hypotheses_opt], the plain name being the accessor of
    [TranslationResult] below. *)
Record TranslationOptions : Type := mkOptions {
  max_batch_size : N;
  beam_size : N;
  length_penalty : spec_float;
  sampling_topk : N;
  sampling_temperature : spec_float;
  max_decoding_length : N;
  min_decoding_length : N;
  num_hypotheses_opt : N;
  use_vmap : bool;
  return_attention : bool;
  return_alternatives : bool
}.

(** Field assignments [options.f = v]. *)
Definition set_max_batch_size (o : TranslationOptions) (v : N) :=
  mkOptions v (beam_size o) (length_penalty o) (sampling_topk o)
    (sampling_temperature o) (max_decoding_length o) (min_decoding_length o)
    (num_hypotheses_opt o) (use_vmap o) (return_attention o) (return_alternatives o).
Definition set_beam_size (o : TranslationOptions) (v : N) :=
  mkOptions (max_batch_size o) v (length_penalty o) (sampling_topk o)
    (sampling_temperature o) (max_decoding_length o) (min_decoding_length o)
    (num_hypotheses_opt o) (use_vmap o) (return_attention o) (return_alternatives o).
Definition set_length_penalty (o : TranslationOptions) (v : spec_float) :=
  mkOptions (max_batch_size o) (beam_size o) v (sampling_topk o)
    (sampling_temperature o) (max_decoding_length o) (min_decoding_length o)
    (num_hypotheses_opt o) (use_vmap o) (return_attention o) (return_alternatives o).
Definition set_sampling_topk (o : TranslationOptions) (v : N) :=
  mkOptions (max_batch_size o) (beam_size o) (length_penalty o) v
    (sampling_temperature o) (max_decoding_length o) (min_decoding_length o)
    (num_hypotheses_opt o) (use_vmap o) (return_attention o) (return_alternatives o).
Definition set_sampling_temperature (o : TranslationOptions) (v : spec_float) :=
  mkOptions (max_batch_size o) (beam_size o) (length_penalty o) (sampling_topk o)
    v (max_decoding_length o) (min_decoding_length o)
    (num_hypotheses_opt o) (use_vmap o) (return_attention o) (return_alternatives o).
Definition set_max_decoding_length (o : TranslationOptions) (v : N) :=
  mkOptions (max_batch_size o) (beam_size o) (length_penalty o) (sampling_topk o)
    (sampling_temperature o) v (min_decoding_length o)
    (num_hypotheses_opt o) (use_vmap o) (return_attention o) (return_alternatives o).
Definition set_min_decoding_length (o : TranslationOptions) (v : N) :=
  mkOptions (max_batch_size o) (beam_size o) (length_penalty o) (sampling_topk o)
    (sampling_temperature o) (max_decoding_length o) v
    (num_hypotheses_opt o) (use_vmap o) (return_attention o) (return_alternatives o).
Definition set_num_hypotheses (o : TranslationOptions) (v : N) :=
  mkOptions (max_batch_size o) (beam_size o) (length_penalty o) (sampling_topk o)
    (sampling_temperature o) (max_decoding_length o) (min_decoding_length o)
    v (use_vmap o) (return_attention o) (return_alternatives o).
Definition set_use_vmap (o : TranslationOptions) (v : bool) :=
  mkOptions (max_batch_size o) (beam_size o) (length_penalty o) (sampling_topk o)
    (sampling_temperature o) (max_decoding_length o) (min_decoding_length o)
    (num_hypotheses_opt o) v (return_attention o) (return_alternatives o).
Definition set_return_attention (o : TranslationOptions) (v : bool) :=
  mkOptions (max_batch_size o) (beam_size o) (length_penalty o) (sampling_topk o)
    (sampling_temperature o) (max_decoding_length o) (min_decoding_length o)
    (num_hypotheses_opt o) (use_vmap o) v (return_alternatives o).
Definition set_return_alternatives (o : TranslationOptions) (v : bool) :=
  mkOptions (max_batch_size o) (beam_size o) (length_penalty o) (sampling_topk o)
    (sampling_temperature o) (max_decoding_length o) (min_decoding_length o)
    (num_hypotheses_opt o) (use_vmap o) (return_attention o) v.

(** Modelled from the spec: [ctranslate2::TranslationResult], whose
    declaration is in a header that is not among the sources.  The wrapper
    reads it through [num_hypotheses()], [scores()], [hypotheses()],
    [has_attention()] and [attention()]: parallel vectors indexed by
    hypothesis, attention being there when its vector is not empty. *)
Record TranslationResult : Type := mkResult {
  hypotheses : list (list string);
  scores : list spec_float;
  attention : list (list (list spec_float))
}.

Definition num_hypotheses (r : TranslationResult) : nat :=
  List.length (hypotheses r).

Definition has_attention (r : TranslationResult) : bool :=
  match attention r with
  | [] => false
  | _ :: _ => true
  end.

Definition TranslationInput : Type := list (list string).

(** Modelled from the spec: the two members of [ctranslate2::TranslatorPool]
    the wrapper calls, as an interface over a pool state [P]; the class is
    declared in [translator_pool.h], which is not among the sources.  [post]
    stands for [post(...).get()]: the wrapper waits for the future at once.
    The release of the interpreter lock around both calls changes nothing
    of what they compute and is left out. *)
Class TranslatorPool (P : Type) : Type := {
  post : P -> TranslationInput -> TranslationInput -> TranslationOptions ->
         P * res (list TranslationResult);
  consume_text_file : P -> string -> string -> N -> TranslationOptions -> bool ->
                      P * res N
}.

(** ** [TranslatorWrapper] *)

(** [v[i]]; past the end of the vector the behaviour is undefined. *)
Definition at_index {A : Type} (v : list A) (i : nat) : res A :=
  match nth_error v i with
  | Some x => Ok x
  | None => Raise undefined
  end.

(** The dictionary built for hypothesis [i] of a result. *)
Definition hyp_to_py (result : TranslationResult) (i : nat) : res pyobj :=
  score <- at_index (scores result) i ;;
  hypothesis <- at_index (hypotheses result) i ;;
  tokens <- std_vector_to_py_list_string hypothesis ;;
  if has_attention result
  then
    attn_vectors <- at_index (attention result) i ;;
    Ok (PyDict [(PyStr "score", PyFloat score);
                (PyStr "tokens", tokens);
                (PyStr "attention", PyList (map std_vector_to_py_list_float attn_vectors))])
  else
    Ok (PyDict [(PyStr "score", PyFloat score); (PyStr "tokens", tokens)]).

(** The list built for one result: the loop over its hypotheses. *)
Definition result_to_py (result : TranslationResult) : res pyobj :=
  batch <- for_each (hyp_to_py result) (seq 0 (num_hypotheses result)) ;;
  Ok (PyList batch).

(** The list returned: the loop over the results. *)
Definition py_results (results : list TranslationResult) : res pyobj :=
  l <- for_each result_to_py results ;;
  Ok (PyList l).

Section Wrapper.

Context {P : Type} `{TranslatorPool P}.

(** Modelled from the spec: a default-constructed
    [ctranslate2::TranslationOptions].  The member initialisers are in the
    missing header, so the value is a parameter. *)
Variable default_options : TranslationOptions.

Definition translate_file (pool : P)
    (in_file out_file : string)
    (max_batch_size read_batch_size beam_size num_hypotheses : N)
    (length_penalty : spec_float)
    (max_decoding_length min_decoding_length : N)
    (use_vmap with_scores : bool)
    (sampling_topk : N)
    (sampling_temperature : spec_float) : P * res pyobj :=
  let options := default_options in
  let options := set_max_batch_size options max_batch_size in
  let options := set_beam_size options beam_size in
  let options := set_length_penalty options length_penalty in
  let options := set_sampling_topk options sampling_topk in
  let options := set_sampling_temperature options sampling_temperature in
  let options := set_max_decoding_length options max_decoding_length in
  let options := set_min_decoding_length options min_decoding_length in
  let options := set_num_hypotheses options num_hypotheses in
  let options := set_use_vmap options use_vmap in
  let read_batch_size :=
    if (read_batch_size =? 0)%N then max_batch_size else read_batch_size in
  match consume_text_file pool in_file out_file read_batch_size options with_scores with
  | (pool', Ok num_tokens) => (pool', Ok (PyTuple [PyInt (Z.of_N num_tokens)]))
  | (pool', Raise e) => (pool', Raise e)
  end.

Definition translate_batch (pool : P)
    (source target_prefix : pyobj)
    (max_batch_size beam_size num_hypotheses : N)
    (length_penalty : spec_float)
    (max_decoding_length min_decoding_length : N)
    (use_vmap return_attention return_alternatives : bool)
    (sampling_topk : N)
    (sampling_temperature : spec_float) : P * res pyobj :=
  if is_none source then (pool, Ok (PyList []))
  else
    match py_len source with
    | Raise e => (pool, Raise e)
    | Ok 0 => (pool, Ok (PyList []))
    | Ok (S _) =>
        match batch_to_vector source false with
        | Raise e => (pool, Raise e)
        | Ok source_input =>
            match batch_to_vector target_prefix true with
            | Raise e => (pool, Raise e)
            | Ok target_prefix_input =>
                let options := default_options in
                let options := set_max_batch_size options max_batch_size in
                let options := set_beam_size options beam_size in
                let options := set_length_penalty options length_penalty in
                let options := set_sampling_topk options sampling_topk in
                let options := set_sampling_temperature options sampling_temperature in
                let options := set_max_decoding_length options max_decoding_length in
                let options := set_min_decoding_length options min_decoding_length in
                let options := set_num_hypotheses options num_hypotheses in
                let options := set_use_vmap options use_vmap in
                let options := set_return_attention options return_attention in
                let options := set_return_alternatives options return_alternatives in
                match post pool source_input target_prefix_input options with
                | (pool', Raise e) => (pool', Raise e)
                | (pool', Ok results) => (pool', py_results results)
                end
            end
        end
    end.

End Wrapper.

(** ** The translator pool, from the design document *)

Module PoolModel.

(** Modelled from the spec: the Batch of the data model ([translator_pool.h]
    is not part of the sources).  A source list paired by index with a
    target-prefix list; the C++ interface passes both as vectors, so an
    absent prefix is the empty vector. *)
Record Batch : Type := mkBatch {
  source : TranslationInput;
  target_prefix : TranslationInput
}.

(** Modelled from the spec: a line written by the Streaming File Consumer,
    the top hypothesis and, when scores are requested, its score. *)
Definition out_line : Type := (option spec_float * list string)%type.

(** Modelled from the spec: the state of [ctranslate2::TranslatorPool] and
    of the files it streams.  [worker_log] lists the sub-batches Workers
    have run, oldest first; [sources] gives the lines (one tokenized
    sequence each) of every readable input; [sinks] gives what has been
    written to every output. *)
Record pool : Type := mkPool {
  default_batch_size : nat;
  worker_log : list Batch;
  sources : string -> option (list (list string));
  sinks : string -> list out_line
}.

(** Modelled from the spec: the Ordered Future of a sub-batch once it has
    been run, with the start of its position range in the parent batch, the
    sub-batch, and what the engine returned. *)
Record completed : Type := mkCompleted {
  range_start : nat;
  sub_batch : Batch;
  outcome : res (list TranslationResult)
}.

(** Modelled from the spec: what the [InvalidArgument] of a target prefix
    of the wrong length says; the design document gives no wording. *)
Definition prefix_mismatch : string :=
  "target prefix length differs from source length".

(** Modelled from the spec: the first [n] elements of a batch and the
    rest of it, each with its slice of the target prefix. *)
Definition take_batch (n : nat) (b : Batch) : Batch :=
  mkBatch (firstn n (source b)) (firstn n (target_prefix b)).

(** Modelled from the spec: what is left of a batch after its first [n]
    elements. *)
Definition drop_batch (n : nat) (b : Batch) : Batch :=
  mkBatch (skipn n (source b)) (skipn n (target_prefix b)).

(** Modelled from the spec: contiguous sub-batches of at most [n] elements,
    in order; [fuel] bounds the number of sub-batches. *)
Fixpoint split_batch (fuel n : nat) (b : Batch) : list Batch :=
  match fuel with
  | 0 => []
  | S fuel' =>
      match source b with
      | [] => []
      | _ :: _ => take_batch n b :: split_batch fuel' n (drop_batch n b)
      end
  end.

(** Modelled from the spec: the partitioning algorithm of the pool.  A
    size of 0 is no cap: the batch is one sub-batch. *)
Definition partition (n : nat) (b : Batch) : list Batch :=
  match n with
  | 0 => match source b with
         | [] => []
         | _ :: _ => [b]
         end
  | S _ => split_batch (List.length (source b)) n b
  end.

(** Modelled from the spec: each sub-batch with the start of its position
    range. *)
Fixpoint tag_ranges (start : nat) (subs : list Batch) : list (nat * Batch) :=
  match subs with
  | [] => []
  | sub :: rest => (start, sub) :: tag_ranges (start + List.length (source sub)) rest
  end.

(** Modelled from the spec: waiting for every sub-batch, in the order they
    complete; the first fault met ends the request. *)
Fixpoint await_all (cs : list completed) : res (list (nat * list TranslationResult)) :=
  match cs with
  | [] => Ok []
  | c :: rest =>
      rs <- outcome c ;;
      more <- await_all rest ;;
      Ok ((range_start c, rs) :: more)
  end.

(** Modelled from the spec: result lists put back in the order of their
    position ranges, by insertion. *)
Fixpoint insert_by_start (x : nat * list TranslationResult)
    (l : list (nat * list TranslationResult)) : list (nat * list TranslationResult) :=
  match l with
  | [] => [x]
  | y :: l' => if fst x <=? fst y then x :: l else y :: insert_by_start x l'
  end.

(** Modelled from the spec: the completed result lists in the order of
    their position ranges. *)
Fixpoint sort_by_start (l : list (nat * list TranslationResult))
    : list (nat * list TranslationResult) :=
  match l with
  | [] => []
  | x :: l' => insert_by_start x (sort_by_start l')
  end.

(** Modelled from the spec: reassembly, the result lists concatenated in
    the order of their position ranges. *)
Definition reassemble (done : list (nat * list TranslationResult)) : list TranslationResult :=
  List.concat (map snd (sort_by_start done)).

(** Modelled from the spec: the effects on the pool state, which are the
    Worker runs and the lines written to an output opened empty. *)
Definition log_workers (p : pool) (subs : list Batch) : pool :=
  mkPool (default_batch_size p) (worker_log p ++ subs) (sources p) (sinks p).

(** Modelled from the spec: lines appended to an output. *)
Definition write_lines (p : pool) (path : string) (lines : list out_line) : pool :=
  mkPool (default_batch_size p) (worker_log p) (sources p)
    (fun q => if String.eqb q path then sinks p q ++ lines else sinks p q).

(** Modelled from the spec: an output opened empty. *)
Definition open_sink (p : pool) (path : string) : pool :=
  mkPool (default_batch_size p) (worker_log p) (sources p)
    (fun q => if String.eqb q path then [] else sinks p q).

(** Modelled from the spec: the number of source tokens of a window. *)
Definition count_tokens (lines : list (list string)) : N :=
  N.of_nat (list_sum (map (@List.length string) lines)).

(** Modelled from the spec: the line written for a result. *)
Definition top_line (with_scores : bool) (r : TranslationResult) : out_line :=
  (if with_scores then hd_error (scores r) else None, hd [] (hypotheses r)).

Section Engine.

(** Modelled from the spec: the external inference engine,
    [EngineHandle.decode(subBatch, options) -> ResultList | Fault]. *)
Variable decode : TranslationOptions -> Batch -> res (list TranslationResult).

(** Modelled from the spec: Workers complete in any order; this is the
    order in which the sub-batches of a request complete. *)
Variable completion_order : forall A : Type, list A -> list A.

(** Modelled from the spec: a Worker runs the engine on a sub-batch with
    the options of the request. *)
Definition run_worker (options : TranslationOptions) (tagged : nat * Batch) : completed :=
  mkCompleted (fst tagged) (snd tagged) (decode options (snd tagged)).

(** Modelled from the spec: [submit(batch, options)] of the Translator
    Pool, waited for at once. *)
Definition submit (p : pool) (src tp : TranslationInput) (options : TranslationOptions)
    : pool * res (list TranslationResult) :=
  match src with
  | [] => (p, Ok [])
  | _ :: _ =>
      if negb (List.length tp =? 0) && negb (List.length tp =? List.length src)
      then (p, Raise (invalid_argument prefix_mismatch))
      else
        let n := if (max_batch_size options =? 0)%N
                 then default_batch_size p
                 else N.to_nat (max_batch_size options) in
        let subs := tag_ranges 0 (partition n (mkBatch src tp)) in
        let cs := completion_order completed (map (run_worker options) subs) in
        (log_workers p (map sub_batch cs),
         done <- await_all cs ;; Ok (reassemble done))
  end.

(** Modelled from the spec: one window after the other, translate, then
    write, then go on; a fault stops the run and leaves what is written. *)
Fixpoint consume_windows (p : pool) (windows : list Batch) (out_file : string)
    (options : TranslationOptions) (with_scores : bool) (num_tokens : N)
    : pool * res N :=
  match windows with
  | [] => (p, Ok num_tokens)
  | w :: rest =>
      match submit p (source w) (target_prefix w) options with
      | (p', Raise e) => (p', Raise e)
      | (p', Ok results) =>
          consume_windows
            (write_lines p' out_file (map (top_line with_scores) results))
            rest out_file options with_scores
            (num_tokens + count_tokens (source w))
      end
  end.

(** Modelled from the spec: [consumeFile] of the Streaming File
    Consumer. *)
Definition consume_file (p : pool) (in_file out_file : string) (read_batch_size : N)
    (options : TranslationOptions) (with_scores : bool) : pool * res N :=
  match sources p in_file with
  | None => (p, Raise io_fault)
  | Some lines =>
      let n := if (read_batch_size =? 0)%N
               then max_batch_size options
               else read_batch_size in
      consume_windows (open_sink p out_file)
        (partition (N.to_nat n) (mkBatch lines []))
        out_file options with_scores 0
  end.

#[export] Instance model_pool : TranslatorPool pool := {
  post := submit;
  consume_text_file := consume_file
}.

End Engine.

(** *** Engines and pools to run the model on *)

(** An engine that returns every source sequence as its own single
    hypothesis, after the forced prefix when there is one. *)
Definition echo_result (b : Batch) (i : nat) (s : list string) : TranslationResult :=
  mkResult [nth i (target_prefix b) [] ++ s] [S754_zero false] [].

Fixpoint echo_from (b : Batch) (i : nat) (l : list (list string)) : list TranslationResult :=
  match l with
  | [] => []
  | s :: rest => echo_result b i s :: echo_from b (S i) rest
  end.

Definition echo_engine (_ : TranslationOptions) (b : Batch) : res (list TranslationResult) :=
  Ok (echo_from b 0 (source b)).

(** An engine that faults on every sub-batch. *)
Definition broken_engine (_ : TranslationOptions) (_ : Batch) : res (list TranslationResult) :=
  Raise (engine_fault "decode").

Definition in_order (A : Type) (l : list A) : list A := l.
Definition last_first (A : Type) (l : list A) : list A := rev l.

Definition no_files : string -> option (list (list string)) := fun _ => None.

Definition one_file (path : string) (lines : list (list string))
    : string -> option (list (list string)) :=
  fun q => if String.eqb q path then Some lines else None.

Definition fresh_pool (files : string -> option (list (list string))) : pool :=
  mkPool 0 [] files (fun _ => []).

End PoolModel.

(** Options as the Python defaults of the binding give them. *)
Definition binding_defaults : TranslationOptions :=
  mkOptions 0 2 (S754_zero false) 1 (S754_finite false 1 0) 250 1 1 false false false.

(** A batch of three sentences, a sparse prefix for it, and a file of five
    lines, to run the wrapper on. *)
Definition sample_source : pyobj :=
  PyList [PyList [PyStr "hello"; PyStr "world"]; PyList [PyStr "foo"]; PyList [PyStr "bar"]].

Definition sample_prefix : pyobj :=
  PyList [PyNone; PyList [PyStr "le"]; PyNone].

Definition sample_lines : list (list string) :=
  [["a"; "b"]; ["c"]; []; ["d"; "e"; "f"]; ["g"]]%string.

(** What the wrapper makes of the pool's answer. *)
Definition results_to_py {P : Type} (r : P * res (list TranslationResult)) : P * res pyobj :=
  match r with
  | (pool', Raise e) => (pool', Raise e)
  | (pool', Ok results) => (pool', py_results results)
  end.

Definition count_to_py {P : Type} (r : P * res N) : P * res pyobj :=
  match r with
  | (pool', Ok num_tokens) => (pool', Ok (PyTuple [PyInt (Z.of_N num_tokens)]))
  | (pool', Raise e) => (pool', Raise e)
  end.

(** An entry of a batch list that [batch_to_vector] turns into a token
    list. *)
Definition token_list (h : pyobj) : Prop :=
  exists toks, py_list_to_std_vector h = Ok toks.

(** The result list [rs] answers the batch [b] position by position: one
    result per source sequence, the [i]-th result standing in the relation
    [R] to the [i]-th sequence and its target prefix, if any. *)
Definition positional
    (R : TranslationOptions -> list string -> option (list string) ->
         TranslationResult -> Prop)
    (options : TranslationOptions) (b : PoolModel.Batch)
    (rs : list TranslationResult) : Prop :=
  List.length rs = List.length (PoolModel.source b) /\
  forall i s r,
    nth_error (PoolModel.source b) i = Some s ->
    nth_error rs i = Some r ->
    R options s (nth_error (PoolModel.target_prefix b) i) r.

(** What is asked of an engine: every result list it returns answers its
    sub-batch position by position. *)
Definition engine_contract
    (decode : TranslationOptions -> PoolModel.Batch -> res (list TranslationResult))
    (R : TranslationOptions -> list string -> option (list string) ->
         TranslationResult -> Prop) : Prop :=
  forall options b rs, decode options b = Ok rs -> positional R options b rs.

(** Completion orders only reorder. *)
Definition reorders (completion_order : forall A : Type, list A -> list A) : Prop :=
  forall (A : Type) (l : list A), Permutation l (completion_order A l).

(** The relation the echo engine keeps. *)
Definition echoes (_ : TranslationOptions) (s : list string) (p : option (list string))
    (r : TranslationResult) : Prop :=
  hypotheses r = [match p with Some t => t | None => [] end ++ s].

(** ** What Python reads in what the wrapper returns *)

(** What [f] makes of every element, when it makes something of each. *)
Fixpoint traverse {A B : Type} (f : A -> option B) (l : list A) : option (list B) :=
  match l with
  | [] => Some []
  | x :: rest =>
      match f x, traverse f rest with
      | Some y, Some ys => Some (y :: ys)
      | _, _ => None
      end
  end.

(** The one-character strings an iteration over the [str] [w] yields, as
    the bytes they are cast to. *)
Definition characters (w : list N) : option (list string) :=
  traverse (fun c => utf8_encode [c]) w.

(** A sentence is a list of tokens and a batch a list of sentences; in
    Python the tokens are [str] objects, in C++ their UTF-8 bytes. *)
Definition py_sentence (sentence : list (list N)) : pyobj :=
  PyList (map PyUnicode sentence).

Definition py_batch (batch : list (list (list N))) : pyobj :=
  PyList (map py_sentence batch).

Definition utf8_tokens (sentence : list (list N)) : option (list string) :=
  traverse utf8_encode sentence.

Definition utf8_batch (batch : list (list (list N))) : option (list (list string)) :=
  traverse utf8_tokens batch.

(** A target prefix is absent or a list whose entries are sentences or
    absent. *)
Definition py_prefix (prefix : option (list (option (list (list N))))) : pyobj :=
  match prefix with
  | None => PyNone
  | Some entries =>
      PyList (map (fun entry => match entry with
                                | None => PyNone
                                | Some sentence => py_sentence sentence
                                end) entries)
  end.

Definition utf8_prefix (prefix : option (list (option (list (list N)))))
    : option (list (list string)) :=
  match prefix with
  | None => Some []
  | Some entries =>
      traverse (fun entry => match entry with
                             | None => Some []
                             | Some sentence => utf8_tokens sentence
                             end) entries
  end.

Fixpoint same_code_points (a b : list N) : bool :=
  match a, b with
  | [], [] => true
  | x :: a', y :: b' => N.eqb x y && same_code_points a' b'
  | _, _ => false
  end.

Definition key_is (key : string) (k : pyobj) : bool :=
  match k with
  | PyUnicode cps => same_code_points cps (code_points key)
  | _ => false
  end.

(** [d[key]] for a dictionary [d] with string keys, [None] when the key is
    not there or [d] is no dictionary. *)
Definition dict_get (key : string) (d : pyobj) : option pyobj :=
  match d with
  | PyDict kv =>
      match find (fun entry => key_is key (fst entry)) kv with
      | Some entry => Some (snd entry)
      | None => None
      end
  | _ => None
  end.

(** A result whose vectors go together: one score per hypothesis and, when
    there is attention, one attention matrix per hypothesis. *)
Definition consistent_result (r : TranslationResult) : Prop :=
  List.length (scores r) = num_hypotheses r /\
  (attention r = [] \/ List.length (attention r) = num_hypotheses r).

(** A result the wrapper can hand to Python: its vectors go together and
    its tokens are UTF-8. *)
Definition valid_utf8 (token : string) : Prop := utf8_decode token <> None.

Definition well_formed_result (r : TranslationResult) : Prop :=
  consistent_result r /\ Forall (Forall valid_utf8) (hypotheses r).

(** The dictionary [h] shows hypothesis [i] of the result [r]: its score,
    its tokens as [str] objects whose UTF-8 bytes are the tokens, and its
    attention matrix when the result has attention. *)
Definition shows_hypothesis (r : TranslationResult) (i : nat) (h : pyobj) : Prop :=
  (exists score,
      nth_error (scores r) i = Some score /\
      dict_get "score" h = Some (PyFloat score)) /\
  (exists tokens sentence,
      nth_error (hypotheses r) i = Some tokens /\
      dict_get "tokens" h = Some (py_sentence sentence) /\
      utf8_tokens sentence = Some tokens) /\
  (if has_attention r
   then exists matrix,
       nth_error (attention r) i = Some matrix /\
       dict_get "attention" h =
       Some (PyList (map (fun row => PyList (map PyFloat row)) matrix))
   else dict_get "attention" h = None).

(** The Python value [out] shows the result [r]: one dictionary per
    hypothesis, in order. *)
Definition shows_result (r : TranslationResult) (out : pyobj) : Prop :=
  exists hyps,
    out = PyList hyps /\
    List.length hyps = num_hypotheses r /\
    forall i h, nth_error hyps i = Some h -> shows_hypothesis r i h.

(** ** Proof steps for the arithmetic of bytes *)

Ltac div_lia := zify; Z.to_euclidean_division_equations; lia.

Ltac split_tests :=
  repeat match goal with
  | H : (_ && _)%bool = true |- _ => apply andb_true_iff in H as [? ?]
  | H : (_ && _)%bool = false |- _ => apply andb_false_iff in H
  | H : (_ || _)%bool = false |- _ => apply orb_false_iff in H as [? ?]
  | H : negb _ = false |- _ => apply negb_false_iff in H
  | H : (_ <? _)%N = true |- _ => apply N.ltb_lt in H
  | H : (_ <? _)%N = false |- _ => apply N.ltb_ge in H
  | H : (_ <=? _)%N = true |- _ => apply N.leb_le in H
  | H : (_ <=? _)%N = false |- _ => apply N.leb_gt in H
  end.

(** * UTF-8: what is decoded encodes back *)

Open Scope N_scope.

Lemma utf8_encode_one_1 (b0 : N) : b0 < 128 -> utf8_encode_one b0 = Some [b0].
Proof.
  intros H. unfold utf8_encode_one. apply N.ltb_lt in H. now rewrite H.
Qed.

Lemma utf8_encode_one_2 (b0 b1 : N) :
  194 <= b0 < 224 -> continuation b1 = true ->
  utf8_encode_one ((b0 - 192) * 64 + (b1 - 128)) = Some [b0; b1].
Proof.
  intros H0 H1. unfold continuation in H1. split_tests.
  unfold utf8_encode_one.
  set (c := (b0 - 192) * 64 + (b1 - 128)).
  assert (Hc : 128 <= c < 2048) by (subst c; lia).
  destruct (N.ltb_spec c 128); [lia|].
  destruct (N.ltb_spec c 2048); [|lia].
  f_equal. f_equal; [|f_equal]; subst c; div_lia.
Qed.

Lemma utf8_encode_one_3 (b0 b1 b2 : N) :
  224 <= b0 < 240 -> continuation b1 = true -> continuation b2 = true ->
  let c := (b0 - 224) * 4096 + (b1 - 128) * 64 + (b2 - 128) in
  2048 <= c -> ~ (55296 <= c < 57344) ->
  utf8_encode_one c = Some [b0; b1; b2].
Proof.
  intros H0 H1 H2 c Hlow Hsur. unfold continuation in H1, H2. split_tests.
  unfold utf8_encode_one.
  assert (Hc : c < 65536) by (subst c; lia).
  destruct (N.ltb_spec c 128); [lia|].
  destruct (N.ltb_spec c 2048); [lia|].
  destruct (N.ltb_spec c 65536); [|lia].
  destruct ((55296 <=? c) && (c <? 57344)) eqn:E.
  - split_tests. lia.
  - f_equal. repeat f_equal; subst c; div_lia.
Qed.

Lemma utf8_encode_one_4 (b0 b1 b2 b3 : N) :
  240 <= b0 < 245 ->
  continuation b1 = true -> continuation b2 = true -> continuation b3 = true ->
  let c := (b0 - 240) * 262144 + (b1 - 128) * 4096 + (b2 - 128) * 64 + (b3 - 128) in
  65536 <= c < 1114112 ->
  utf8_encode_one c = Some [b0; b1; b2; b3].
Proof.
  intros H0 H1 H2 H3 c Hc. unfold continuation in H1, H2, H3. split_tests.
  unfold utf8_encode_one.
  destruct (N.ltb_spec c 128); [lia|].
  destruct (N.ltb_spec c 2048); [lia|].
  destruct (N.ltb_spec c 65536); [lia|].
  destruct (N.ltb_spec c 1114112); [|lia].
  f_equal. repeat f_equal; subst c; div_lia.
Qed.

Lemma utf8_decode_encode_bounded (n : nat) :
  forall s, (String.length s <= n)%nat ->
  forall cps, utf8_decode s = Some cps -> utf8_encode cps = Some s.
Proof.
  induction n as [|n IH]; intros s Hlen cps.
  - destruct s; [|simpl in Hlen; lia]. simpl. now intros [= <-].
  - destruct s as [|a0 s1]; [simpl; now intros [= <-]|].
    cbn [utf8_decode String.length] in *. cbv zeta.
    destruct (N_of_ascii a0 <? 128) eqn:T0.
    { destruct (utf8_decode s1) as [r|] eqn:E1; [|discriminate].
      intros [= <-]. cbn [utf8_encode]. split_tests.
      rewrite utf8_encode_one_1 by assumption.
      rewrite (IH s1) with (cps := r) by (assumption || lia).
      unfold bytes_to_string. simpl. now rewrite ascii_N_embedding. }
    destruct s1 as [|a1 s2]; [discriminate|].
    destruct (negb (continuation (N_of_ascii a1))) eqn:C1; [discriminate|].
    cbn [String.length] in Hlen.
    destruct ((194 <=? N_of_ascii a0) && (N_of_ascii a0 <? 224)) eqn:T2.
    { destruct (utf8_decode s2) as [r|] eqn:E2; [|discriminate].
      intros [= <-]. cbn [utf8_encode]. split_tests.
      rewrite utf8_encode_one_2 by (assumption || lia).
      rewrite (IH s2) with (cps := r) by (assumption || lia).
      unfold bytes_to_string. simpl. now rewrite !ascii_N_embedding. }
    destruct s2 as [|a2 s3]; [discriminate|].
    destruct (negb (continuation (N_of_ascii a2))) eqn:C2; [discriminate|].
    cbn [String.length] in Hlen.
    destruct ((224 <=? N_of_ascii a0) && (N_of_ascii a0 <? 240)) eqn:T3.
    { match goal with |- context [(?c <? 2048) || _] => set (cp := c) end.
      destruct ((cp <? 2048) || ((55296 <=? cp) && (cp <? 57344))) eqn:V; [discriminate|].
      destruct (utf8_decode s3) as [r|] eqn:E3; [|discriminate].
      intros [= <-]. cbn [utf8_encode]. split_tests.
      subst cp. rewrite utf8_encode_one_3; try assumption; try lia.
      - rewrite (IH s3) with (cps := r) by (assumption || lia).
        unfold bytes_to_string. simpl. now rewrite !ascii_N_embedding.
      - match goal with H : _ \/ _ |- _ => destruct H; split_tests; lia end. }
    destruct s3 as [|a3 s4]; [discriminate|].
    destruct (negb (continuation (N_of_ascii a3))) eqn:C3; [discriminate|].
    cbn [String.length] in Hlen.
    destruct ((240 <=? N_of_ascii a0) && (N_of_ascii a0 <? 245)) eqn:T4; [|discriminate].
    match goal with |- context [(?c <? 65536) || _] => set (cp := c) end.
    destruct ((cp <? 65536) || (1114112 <=? cp)) eqn:V; [discriminate|].
    destruct (utf8_decode s4) as [r|] eqn:E4; [|discriminate].
    intros [= <-]. cbn [utf8_encode]. split_tests.
    subst cp. rewrite utf8_encode_one_4; try assumption; try lia.
    rewrite (IH s4) with (cps := r) by (assumption || lia).
    unfold bytes_to_string. simpl. now rewrite !ascii_N_embedding.
Qed.

Lemma utf8_decode_encode (s : string) (cps : list N) :
  utf8_decode s = Some cps -> utf8_encode cps = Some s.
Proof. now apply utf8_decode_encode_bounded with (n := String.length s). Qed.

Close Scope N_scope.

(** * Properties of the marshalling helpers *)

Lemma length_list_ascii_of_string (s : string) :
  List.length (list_ascii_of_string s) = String.length s.
Proof.
  induction s as [|c s IH]; simpl; [reflexivity | now rewrite IH].
Qed.

Lemma py_iter_of_len (o : pyobj) (n : nat) :
  py_len o = Ok n ->
  exists items, py_iter o = Ok items /\ List.length items = n.
Proof.
  destruct o; simpl; intros E; try discriminate; injection E as <-;
    (eexists; split; [reflexivity|]);
    rewrite ?length_map, ?length_list_ascii_of_string; reflexivity.
Qed.

Lemma batch_items_length (items : list pyobj) (optional : bool) :
  forall v, batch_items items optional = Ok v -> List.length v = List.length items.
Proof.
  induction items as [|h rest IH]; simpl; intros v E.
  - now injection E as <-.
  - destruct (if is_none h then _ else _) as [x|e]; simpl in E; [|discriminate].
    destruct (batch_items rest optional) as [w|e]; simpl in E; [|discriminate].
    injection E as <-. simpl. now rewrite (IH w).
Qed.

Lemma batch_to_vector_length (l : pyobj) (optional : bool) (v : list (list string)) :
  is_none l = false ->
  batch_to_vector l optional = Ok v ->
  py_len l = Ok (List.length v).
Proof.
  unfold batch_to_vector. intros ->.
  destruct (py_len l) as [n|e] eqn:El; simpl; [|discriminate].
  destruct (py_iter_of_len l n El) as (items & -> & <-). simpl.
  intros E. now rewrite (batch_items_length _ _ _ E).
Qed.

Lemma batch_to_vector_list (l : list pyobj) (optional : bool) :
  batch_to_vector (PyList l) optional = batch_items l optional.
Proof. reflexivity. Qed.

(** The only failures of the token-list conversion are those of [py::len],
    of the iteration and of the string cast. *)
Lemma cast_items_raises (items : list pyobj) (e : exn) :
  cast_items items = Raise e -> e = cast_error.
Proof.
  induction items as [|h rest IH]; simpl; [discriminate|].
  destruct (cast_string h) as [x|e'] eqn:Eh; simpl.
  - destruct (cast_items rest) as [v|e'']; simpl; [discriminate|].
    intros X. injection X as <-. now apply IH.
  - intros X. injection X as <-.
    destruct h; simpl in Eh; try (now injection Eh as <-); try discriminate.
    destruct (utf8_encode cps); [discriminate | now injection Eh as <-].
Qed.

Lemma py_list_to_std_vector_raises (h : pyobj) (e : exn) :
  py_list_to_std_vector h = Raise e -> e = cast_error \/ e = type_error.
Proof.
  unfold py_list_to_std_vector.
  destruct (py_len h) as [n|e'] eqn:El; simpl.
  - destruct (py_iter_of_len h n El) as (items & -> & _). simpl.
    intros X. left. now apply cast_items_raises in X.
  - intros X. injection X as <-. right.
    destruct h; simpl in El; try discriminate; now injection El as <-.
Qed.

(** With [optional] set, the loop never throws [std::invalid_argument]. *)
Lemma batch_items_optional_raises (items : list pyobj) (e : exn) :
  batch_items items true = Raise e -> e = cast_error \/ e = type_error.
Proof.
  induction items as [|h rest IH]; simpl; [discriminate|].
  destruct (is_none h).
  - simpl. destruct (batch_items rest true) as [v|e']; simpl; [discriminate|].
    intros X. injection X as <-. now apply IH.
  - destruct (py_list_to_std_vector h) as [x|e'] eqn:Eh; simpl.
    + destruct (batch_items rest true) as [v|e'']; simpl; [discriminate|].
      intros X. injection X as <-. now apply IH.
    + intros X. injection X as <-. now apply py_list_to_std_vector_raises in Eh.
Qed.

(** Entries that are [None] become empty sequences when [optional] is set. *)
Lemma batch_items_optional_ok (items : list pyobj) :
  (forall h, In h items -> h = PyNone \/ token_list h) ->
  exists v, batch_items items true = Ok v /\
            List.length v = List.length items /\
            forall i, nth_error items i = Some PyNone -> nth_error v i = Some [].
Proof.
  induction items as [|h rest IH]; intros Hall.
  - exists []. repeat split. intros [|i]; discriminate.
  - destruct IH as (v & Ev & Hlen & Hnone).
    { intros h' Hin. apply Hall. now right. }
    simpl. rewrite Ev.
    destruct (Hall h (or_introl eq_refl)) as [-> | (toks & Et)].
    + exists ([] :: v). simpl. repeat split; [now rewrite Hlen|].
      intros [|i]; simpl; [reflexivity | apply Hnone].
    + destruct (is_none h) eqn:En.
      * destruct h; discriminate En || discriminate Et.
      * rewrite Et. exists (toks :: v). simpl. repeat split; [now rewrite Hlen|].
        intros [|i]; simpl; [|apply Hnone].
        intros X. injection X as ->. discriminate En.
Qed.

(** In the source batch the first [None] met throws. *)
Lemma batch_items_required_none (pre post : list pyobj) :
  (forall h, In h pre -> token_list h) ->
  batch_items (pre ++ PyNone :: post) false =
  Raise (invalid_argument "Invalid None value in input list").
Proof.
  induction pre as [|h pre IH]; intros Hall; simpl; [reflexivity|].
  destruct (Hall h (or_introl eq_refl)) as (toks & Et).
  destruct (is_none h) eqn:En.
  - destruct h; discriminate En || discriminate Et.
  - rewrite Et. simpl. rewrite IH; [reflexivity|].
    intros h' Hin. apply Hall. now right.
Qed.

Lemma batch_items_required_none_raises (items : list pyobj) :
  In PyNone items -> exists e, batch_items items false = Raise e.
Proof.
  induction items as [|h rest IH]; intros Hin; [destruct Hin|].
  simpl. destruct Hin as [-> | Hin].
  - simpl. now eexists.
  - destruct (if is_none h then _ else _) as [x|e]; simpl; [|now eexists].
    destruct (IH Hin) as (e & ->). simpl. now eexists.
Qed.

(** ** Loops *)

Lemma for_each_ok {A B : Type} (f : A -> res B) (l : list A) :
  forall ys, for_each f l = Ok ys -> Forall2 (fun x y => f x = Ok y) l ys.
Proof.
  induction l as [|x l IH]; simpl; intros ys E.
  - injection E as <-. constructor.
  - destruct (f x) as [y|e] eqn:Ex; simpl in E; [|discriminate].
    destruct (for_each f l) as [zs|e]; simpl in E; [|discriminate].
    injection E as <-. constructor; [assumption | now apply IH].
Qed.

Lemma for_each_total {A B : Type} (f : A -> res B) (l : list A) :
  (forall x, In x l -> exists y, f x = Ok y) -> exists ys, for_each f l = Ok ys.
Proof.
  induction l as [|x l IH]; simpl; intros Hall; [now eexists|].
  destruct (Hall x (or_introl eq_refl)) as (y & ->). simpl.
  destruct IH as (ys & ->); [intros z Hz; apply Hall; now right|].
  simpl. now eexists.
Qed.

Lemma for_each_raises {A B : Type} (f : A -> res B) (l : list A) (e : exn) :
  for_each f l = Raise e -> exists x, In x l /\ f x = Raise e.
Proof.
  induction l as [|x l IH]; simpl; [discriminate|].
  destruct (f x) as [y|e'] eqn:Ex; simpl.
  - destruct (for_each f l) as [ys|e'']; simpl; [discriminate|].
    intros X. destruct (IH X) as (x' & Hin & Hx'). exists x'. split; [now right | assumption].
  - intros X. injection X as <-. exists x. split; [now left | assumption].
Qed.

(** ** Batches of [str] tokens *)

Lemma cast_items_sentence (sentence : list (list N)) :
  cast_items (map PyUnicode sentence) =
  match utf8_tokens sentence with
  | Some tokens => Ok tokens
  | None => Raise cast_error
  end.
Proof.
  unfold utf8_tokens.
  induction sentence as [|w rest IH]; simpl; [reflexivity|].
  destruct (utf8_encode w) as [x|]; simpl; [|reflexivity].
  rewrite IH. now destruct (traverse utf8_encode rest).
Qed.

Lemma py_list_to_std_vector_sentence (sentence : list (list N)) :
  py_list_to_std_vector (py_sentence sentence) =
  match utf8_tokens sentence with
  | Some tokens => Ok tokens
  | None => Raise cast_error
  end.
Proof.
  unfold py_list_to_std_vector, py_sentence. simpl. apply cast_items_sentence.
Qed.

Lemma batch_to_vector_py_batch (batch : list (list (list N))) (optional : bool) :
  batch_to_vector (py_batch batch) optional =
  match utf8_batch batch with
  | Some source_input => Ok source_input
  | None => Raise cast_error
  end.
Proof.
  unfold py_batch, utf8_batch. rewrite batch_to_vector_list.
  induction batch as [|sentence rest IH]; simpl; [reflexivity|].
  fold (py_sentence sentence). rewrite py_list_to_std_vector_sentence.
  destruct (utf8_tokens sentence) as [x|]; simpl; [|reflexivity].
  rewrite IH. now destruct (traverse utf8_tokens rest).
Qed.

Lemma batch_to_vector_py_prefix (prefix : option (list (option (list (list N))))) :
  batch_to_vector (py_prefix prefix) true =
  match utf8_prefix prefix with
  | Some target_prefix_input => Ok target_prefix_input
  | None => Raise cast_error
  end.
Proof.
  destruct prefix as [entries|]; [|reflexivity].
  unfold py_prefix, utf8_prefix. rewrite batch_to_vector_list.
  induction entries as [|entry rest IH]; simpl; [reflexivity|].
  destruct entry as [sentence|]; simpl.
  - fold (py_sentence sentence). rewrite py_list_to_std_vector_sentence.
    destruct (utf8_tokens sentence) as [x|]; simpl; [|reflexivity].
    rewrite IH.
    now destruct (traverse _ rest).
  - rewrite IH. now destruct (traverse _ rest).
Qed.

Lemma traverse_length {A B : Type} (f : A -> option B) (l : list A) :
  forall ys, traverse f l = Some ys -> List.length ys = List.length l.
Proof.
  induction l as [|x l IH]; simpl; intros ys E.
  - now injection E as <-.
  - destruct (f x); [|discriminate]. destruct (traverse f l); [|discriminate].
    injection E as <-. simpl. now rewrite (IH l0).
Qed.

(** ** Results on their way to Python *)

Lemma str_items_sentence (tokens : list string) :
  forall l, for_each STR_TYPE tokens = Ok l ->
  exists sentence, l = map PyUnicode sentence /\ utf8_tokens sentence = Some tokens.
Proof.
  unfold utf8_tokens.
  induction tokens as [|t rest IH]; simpl; intros l E.
  - injection E as <-. now exists [].
  - unfold STR_TYPE at 1 in E.
    destruct (utf8_decode t) as [cps|] eqn:Et; simpl in E; [|discriminate].
    destruct (for_each STR_TYPE rest) as [l'|e]; simpl in E; [|discriminate].
    injection E as <-.
    destruct (IH l' eq_refl) as (sentence & -> & Es).
    exists (cps :: sentence). split; [reflexivity|].
    simpl. now rewrite (utf8_decode_encode _ _ Et), Es.
Qed.

Lemma str_items_total (tokens : list string) :
  Forall valid_utf8 tokens -> exists l, for_each STR_TYPE tokens = Ok l.
Proof.
  intros Hv. apply for_each_total. intros t Ht.
  rewrite Forall_forall in Hv. specialize (Hv t Ht).
  unfold STR_TYPE, valid_utf8 in *.
  destruct (utf8_decode t); [now eexists | contradiction].
Qed.

Lemma at_index_ok {A : Type} (v : list A) (i : nat) (x : A) :
  at_index v i = Ok x <-> nth_error v i = Some x.
Proof.
  unfold at_index. destruct (nth_error v i); split; intros E;
    try discriminate; now injection E as <-.
Qed.

Lemma hyp_to_py_shows (r : TranslationResult) (i : nat) (h : pyobj) :
  hyp_to_py r i = Ok h -> shows_hypothesis r i h.
Proof.
  unfold hyp_to_py, shows_hypothesis.
  destruct (at_index (scores r) i) as [score|e] eqn:Es; simpl; [|discriminate].
  destruct (at_index (hypotheses r) i) as [tokens|e] eqn:Et; simpl; [|discriminate].
  unfold std_vector_to_py_list_string.
  destruct (for_each STR_TYPE tokens) as [l|e] eqn:El; simpl; [|discriminate].
  apply at_index_ok in Es, Et.
  destruct (str_items_sentence _ _ El) as (sentence & -> & Eu).
  destruct (has_attention r).
  - destruct (at_index (attention r) i) as [matrix|e] eqn:Ea; simpl; [|discriminate].
    apply at_index_ok in Ea. intros E. injection E as <-.
    split; [now exists score|]. split; [now exists tokens, sentence|].
    now exists matrix.
  - intros E. injection E as <-.
    split; [now exists score|]. split; [now exists tokens, sentence|].
    reflexivity.
Qed.

Lemma for_each_seq_from {B : Type} (f : nat -> res B) (n : nat) :
  forall start ys,
    for_each f (seq start n) = Ok ys ->
    List.length ys = n /\
    forall i y, nth_error ys i = Some y -> f (start + i) = Ok y.
Proof.
  induction n as [|n IH]; simpl; intros start ys E.
  - injection E as <-. split; [reflexivity|]. intros [|i] y; discriminate.
  - destruct (f start) as [y0|e] eqn:E0; simpl in E; [|discriminate].
    destruct (for_each f (seq (S start) n)) as [ys'|e] eqn:E'; simpl in E;
      [|discriminate].
    injection E as <-. destruct (IH _ _ E') as [Hlen Hnth].
    split; [simpl; now rewrite Hlen|].
    intros [|i] y; simpl.
    + intros X. injection X as <-. now rewrite Nat.add_0_r.
    + intros X. rewrite Nat.add_succ_r. now apply Hnth.
Qed.

Lemma result_to_py_shows (r : TranslationResult) (out : pyobj) :
  result_to_py r = Ok out -> shows_result r out.
Proof.
  unfold result_to_py, shows_result.
  destruct (for_each _ _) as [hyps|e] eqn:E; simpl; [|discriminate].
  intros X. injection X as <-.
  destruct (for_each_seq_from _ _ _ _ E) as [Hlen Hnth].
  exists hyps. split; [reflexivity|]. split; [assumption|].
  intros i h Eh. apply hyp_to_py_shows. now apply (Hnth i h).
Qed.

Lemma hyp_to_py_total (r : TranslationResult) (i : nat) :
  well_formed_result r -> i < num_hypotheses r -> exists h, hyp_to_py r i = Ok h.
Proof.
  intros [[Hs Ha] Hu] Hi. unfold hyp_to_py, num_hypotheses in *.
  destruct (nth_error (scores r) i) as [score|] eqn:Es;
    [|apply nth_error_None in Es; lia].
  destruct (nth_error (hypotheses r) i) as [tokens|] eqn:Et;
    [|apply nth_error_None in Et; lia].
  apply at_index_ok in Es as ->. pose proof Et as Et'.
  apply at_index_ok in Et' as ->. simpl.
  rewrite Forall_forall in Hu.
  destruct (str_items_total tokens) as (l & El);
    [apply Hu; now apply nth_error_In in Et|].
  unfold std_vector_to_py_list_string. rewrite El. simpl.
  unfold has_attention.
  destruct (attention r) as [|m ms] eqn:Eatt; [now eexists|].
  destruct Ha as [Ha | Ha]; [discriminate|].
  destruct (nth_error (m :: ms) i) as [matrix|] eqn:Em;
    [|apply nth_error_None in Em; lia].
  apply at_index_ok in Em as ->. simpl. now eexists.
Qed.

Lemma result_to_py_total (r : TranslationResult) :
  well_formed_result r -> exists out, result_to_py r = Ok out.
Proof.
  intros Hwf. unfold result_to_py.
  destruct (for_each_total (hyp_to_py r) (seq 0 (num_hypotheses r))) as (hyps & ->).
  - intros i Hi. apply in_seq in Hi. apply hyp_to_py_total; [assumption | lia].
  - simpl. now eexists.
Qed.

Lemma py_results_ok (results : list TranslationResult) (out : pyobj) :
  py_results results = Ok out ->
  exists outs, out = PyList outs /\ Forall2 shows_result results outs.
Proof.
  unfold py_results.
  destruct (for_each result_to_py results) as [outs|e] eqn:E; simpl; [|discriminate].
  intros X. injection X as <-. exists outs. split; [reflexivity|].
  apply for_each_ok in E. eapply Forall2_impl; [|exact E].
  intros r out. apply result_to_py_shows.
Qed.

Lemma py_results_total (results : list TranslationResult) :
  Forall well_formed_result results -> exists outs, py_results results = Ok (PyList outs).
Proof.
  intros Hwf. unfold py_results.
  destruct (for_each_total result_to_py results) as (outs & ->).
  - intros r Hr. rewrite Forall_forall in Hwf. now apply result_to_py_total, Hwf.
  - simpl. now eexists.
Qed.

(** With vectors that go together nothing is read past the end. *)
Lemma hyp_to_py_defined (r : TranslationResult) (i : nat) :
  consistent_result r -> i < num_hypotheses r -> hyp_to_py r i <> Raise undefined.
Proof.
  intros [Hs Ha] Hi. unfold hyp_to_py, num_hypotheses in *.
  destruct (nth_error (scores r) i) as [score|] eqn:Es;
    [|apply nth_error_None in Es; lia].
  destruct (nth_error (hypotheses r) i) as [tokens|] eqn:Et;
    [|apply nth_error_None in Et; lia].
  apply at_index_ok in Es as ->. apply at_index_ok in Et as ->. simpl.
  unfold std_vector_to_py_list_string.
  destruct (for_each STR_TYPE tokens) as [l|e] eqn:El; simpl.
  - unfold has_attention.
    destruct (attention r) as [|m ms] eqn:Eatt; [discriminate|].
    destruct Ha as [Ha | Ha]; [discriminate|].
    destruct (nth_error (m :: ms) i) as [matrix|] eqn:Em;
      [|apply nth_error_None in Em; lia].
    apply at_index_ok in Em as ->. discriminate.
  - apply for_each_raises in El as (t & _ & Et').
    unfold STR_TYPE in Et'. destruct (utf8_decode t); [discriminate|].
    injection Et' as <-. discriminate.
Qed.

Lemma py_results_defined (results : list TranslationResult) :
  Forall consistent_result results -> py_results results <> Raise undefined.
Proof.
  intros Hc. unfold py_results.
  destruct (for_each result_to_py results) as [outs|e] eqn:E; simpl; [discriminate|].
  intros X. injection X as ->.
  apply for_each_raises in E as (r & Hr & Er).
  rewrite Forall_forall in Hc. specialize (Hc r Hr).
  unfold result_to_py in Er.
  destruct (for_each (hyp_to_py r) _) as [hyps|e] eqn:Eh; simpl in Er; [discriminate|].
  injection Er as ->.
  apply for_each_raises in Eh as (i & Hi & Ei). apply in_seq in Hi.
  revert Ei. apply hyp_to_py_defined; [assumption | lia].
Qed.

(** * Properties of [TranslatorWrapper], for every translator pool *)

Section WrapperFacts.

Context {P : Type} `{TranslatorPool P}.
Variable default_options : TranslationOptions.
Variable pool : P.

(** The call of the pool that a non-empty, convertible batch reaches. *)
Lemma translate_batch_reaches_pool
    (source target_prefix : pyobj) (n : nat)
    (source_input target_prefix_input : TranslationInput)
    (mbs bs nh : N) (lp : spec_float) (maxl minl : N)
    (vmap ra ralt : bool) (topk : N) (temp : spec_float) :
  py_len source = Ok (S n) ->
  batch_to_vector source false = Ok source_input ->
  batch_to_vector target_prefix true = Ok target_prefix_input ->
  translate_batch default_options pool source target_prefix
    mbs bs nh lp maxl minl vmap ra ralt topk temp =
  results_to_py
    (post pool source_input target_prefix_input
       (mkOptions mbs bs lp topk temp maxl minl nh vmap ra ralt)).
Proof.
  intros El Es Et. unfold translate_batch.
  destruct source; try discriminate El; simpl is_none; cbv iota;
    rewrite El, Es, Et; reflexivity.
Qed.

(** A failure of either conversion ends the call with the pool as it was. *)
Lemma translate_batch_source_raises
    (source target_prefix : pyobj) (n : nat) (e : exn)
    (mbs bs nh : N) (lp : spec_float) (maxl minl : N)
    (vmap ra ralt : bool) (topk : N) (temp : spec_float) :
  py_len source = Ok (S n) ->
  batch_to_vector source false = Raise e ->
  translate_batch default_options pool source target_prefix
    mbs bs nh lp maxl minl vmap ra ralt topk temp = (pool, Raise e).
Proof.
  intros El Es. unfold translate_batch.
  destruct source; try discriminate El; simpl is_none; cbv iota;
    rewrite El, Es; reflexivity.
Qed.

Lemma translate_batch_prefix_raises
    (source target_prefix : pyobj) (n : nat) (e : exn)
    (source_input : TranslationInput)
    (mbs bs nh : N) (lp : spec_float) (maxl minl : N)
    (vmap ra ralt : bool) (topk : N) (temp : spec_float) :
  py_len source = Ok (S n) ->
  batch_to_vector source false = Ok source_input ->
  batch_to_vector target_prefix true = Raise e ->
  translate_batch default_options pool source target_prefix
    mbs bs nh lp maxl minl vmap ra ralt topk temp = (pool, Raise e).
Proof.
  intros El Es Et. unfold translate_batch.
  destruct source; try discriminate El; simpl is_none; cbv iota;
    rewrite El, Es, Et; reflexivity.
Qed.

Lemma translate_file_reaches_pool
    (in_file out_file : string) (mbs rbs bs nh : N) (lp : spec_float)
    (maxl minl : N) (vmap with_scores : bool) (topk : N) (temp : spec_float) :
  translate_file default_options pool in_file out_file
    mbs rbs bs nh lp maxl minl vmap with_scores topk temp =
  count_to_py
    (consume_text_file pool in_file out_file
       (if (rbs =? 0)%N then mbs else rbs)
       (mkOptions mbs bs lp topk temp maxl minl nh vmap
          (return_attention default_options)
          (return_alternatives default_options))
       with_scores).
Proof. reflexivity. Qed.

(** C2.  A call of [translate_batch] whose source is [None] or the empty
    list returns the empty list and leaves the translator pool exactly as
    it was, whatever the pool is: no Worker is invoked. *)
Theorem translate_batch_empty_source
    (target_prefix : pyobj)
    (mbs bs nh : N) (lp : spec_float) (maxl minl : N)
    (vmap ra ralt : bool) (topk : N) (temp : spec_float) :
  translate_batch default_options pool PyNone target_prefix
    mbs bs nh lp maxl minl vmap ra ralt topk temp = (pool, Ok (PyList []))
  /\
  translate_batch default_options pool (PyList []) target_prefix
    mbs bs nh lp maxl minl vmap ra ralt topk temp = (pool, Ok (PyList [])).
Proof. split; reflexivity. Qed.

(** C9.  With a source that is [None] or empty the call never raises,
    whatever the target prefix is: the prefix is not looked at, so one
    whose conversion would throw, or whose length is wrong, goes
    unnoticed. *)
Theorem empty_source_skips_prefix_validation
    (target_prefix : pyobj)
    (mbs bs nh : N) (lp : spec_float) (maxl minl : N)
    (vmap ra ralt : bool) (topk : N) (temp : spec_float) :
  (forall e,
      snd (translate_batch default_options pool PyNone target_prefix
             mbs bs nh lp maxl minl vmap ra ralt topk temp) <> Raise e)
  /\
  (forall e,
      snd (translate_batch default_options pool (PyList []) target_prefix
             mbs bs nh lp maxl minl vmap ra ralt topk temp) <> Raise e).
Proof. split; intros e; simpl; discriminate. Qed.

(** C4.  In a target-prefix list every entry that is [None] becomes an
    empty sequence: when the other entries are token lists the conversion
    succeeds, keeps the length, puts [[]] at each [None], and that vector
    is what [translate_batch] hands to the pool. *)
Theorem target_prefix_none_is_empty_sequence
    (entries : list pyobj)
    (Hentries : forall h, In h entries -> h = PyNone \/ token_list h) :
  exists v,
    batch_to_vector (PyList entries) true = Ok v /\
    List.length v = List.length entries /\
    (forall i, nth_error entries i = Some PyNone -> nth_error v i = Some []) /\
    (forall source n source_input mbs bs nh lp maxl minl vmap ra ralt topk temp,
        py_len source = Ok (S n) ->
        batch_to_vector source false = Ok source_input ->
        translate_batch default_options pool source (PyList entries)
          mbs bs nh lp maxl minl vmap ra ralt topk temp =
        results_to_py
          (post pool source_input v
             (mkOptions mbs bs lp topk temp maxl minl nh vmap ra ralt))).
Proof.
  destruct (batch_items_optional_ok entries Hentries) as (v & Ev & Hlen & Hnone).
  exists v. rewrite batch_to_vector_list. repeat split; try assumption.
  intros. now apply translate_batch_reaches_pool with (n := n).
Qed.

(** C5.  When [translate_batch] calls the pool, the options object it
    passes holds each of the eleven decoding arguments as it was given. *)
Theorem translate_batch_options_unmodified
    (source target_prefix : pyobj) (n : nat)
    (source_input target_prefix_input : TranslationInput)
    (mbs bs nh : N) (lp : spec_float) (maxl minl : N)
    (vmap ra ralt : bool) (topk : N) (temp : spec_float)
    (Hlen : py_len source = Ok (S n))
    (Hsource : batch_to_vector source false = Ok source_input)
    (Hprefix : batch_to_vector target_prefix true = Ok target_prefix_input) :
  exists options,
    translate_batch default_options pool source target_prefix
      mbs bs nh lp maxl minl vmap ra ralt topk temp =
    results_to_py (post pool source_input target_prefix_input options)
    /\ max_batch_size options = mbs
    /\ beam_size options = bs
    /\ length_penalty options = lp
    /\ sampling_topk options = topk
    /\ sampling_temperature options = temp
    /\ max_decoding_length options = maxl
    /\ min_decoding_length options = minl
    /\ num_hypotheses_opt options = nh
    /\ use_vmap options = vmap
    /\ return_attention options = ra
    /\ return_alternatives options = ralt.
Proof.
  eexists. split.
  - unfold translate_batch.
    destruct source; try discriminate Hlen; simpl is_none; cbv iota;
      rewrite Hlen, Hsource, Hprefix; reflexivity.
  - simpl. repeat split.
Qed.

(** C6.  [translate_file] reads with [max_batch_size] when
    [read_batch_size] is 0, and with [read_batch_size] itself when it is
    not: that is the size it hands to [consume_text_file]. *)
Theorem translate_file_read_batch_size
    (in_file out_file : string) (mbs bs nh : N) (lp : spec_float)
    (maxl minl : N) (vmap with_scores : bool) (topk : N) (temp : spec_float) :
  exists options,
    translate_file default_options pool in_file out_file
      mbs 0 bs nh lp maxl minl vmap with_scores topk temp =
    count_to_py (consume_text_file pool in_file out_file mbs options with_scores)
    /\
    forall rbs : positive,
      translate_file default_options pool in_file out_file
        mbs (N.pos rbs) bs nh lp maxl minl vmap with_scores topk temp =
      count_to_py
        (consume_text_file pool in_file out_file (N.pos rbs) options with_scores).
Proof. eexists. split; [|intros rbs]; reflexivity. Qed.

(** C10.  The options object [translate_file] hands to the pool has
    [return_attention] and [return_alternatives] as a default-constructed
    object has them, whatever the arguments of the call; with the
    library's defaults, both off, no attention and no alternatives are
    requested. *)
Theorem translate_file_keeps_attention_defaults
    (in_file out_file : string) (mbs rbs bs nh : N) (lp : spec_float)
    (maxl minl : N) (vmap with_scores : bool) (topk : N) (temp : spec_float)
    (Hattention : return_attention default_options = false)
    (Halternatives : return_alternatives default_options = false) :
  exists read_size options,
    translate_file default_options pool in_file out_file
      mbs rbs bs nh lp maxl minl vmap with_scores topk temp =
    count_to_py
      (consume_text_file pool in_file out_file read_size options with_scores)
    /\ return_attention options = return_attention default_options
    /\ return_alternatives options = return_alternatives default_options
    /\ return_attention options = false
    /\ return_alternatives options = false.
Proof.
  do 2 eexists. split; [apply translate_file_reaches_pool|].
  simpl. auto.
Qed.

(** C8, as the code has it.  A source list with a [None] entry makes the
    call raise with the pool untouched; the error is the invalid-argument
    error "Invalid None value in input list" when the entries before that
    [None] are token lists, an earlier entry of another kind failing
    first with its own error. *)
Theorem translate_batch_none_in_source
    (entries : list pyobj) (target_prefix : pyobj)
    (mbs bs nh : N) (lp : spec_float) (maxl minl : N)
    (vmap ra ralt : bool) (topk : N) (temp : spec_float)
    (Hnone : In PyNone entries) :
  exists e,
    translate_batch default_options pool (PyList entries) target_prefix
      mbs bs nh lp maxl minl vmap ra ralt topk temp = (pool, Raise e)
    /\
    forall pre post,
      entries = pre ++ PyNone :: post ->
      (forall h, In h pre -> token_list h) ->
      e = invalid_argument "Invalid None value in input list".
Proof.
  destruct (batch_items_required_none_raises entries Hnone) as (e & Ee).
  exists e. split.
  - destruct entries as [|h rest]; [destruct Hnone|].
    apply translate_batch_source_raises with (n := List.length rest);
      [reflexivity | now rewrite batch_to_vector_list].
  - intros pre post -> Hpre.
    rewrite (batch_items_required_none pre post Hpre) in Ee.
    now injection Ee as <-.
Qed.

End WrapperFacts.

(** * Properties of the pool model *)

Import PoolModel.

(** ** Reassembly by position range *)

Lemma insert_by_start_perm (x : nat * list TranslationResult) l :
  Permutation (x :: l) (insert_by_start x l).
Proof.
  induction l as [|y l IH]; simpl; [reflexivity|].
  destruct (fst x <=? fst y); [reflexivity|].
  rewrite perm_swap. now apply perm_skip.
Qed.

Lemma sort_by_start_perm l : Permutation l (sort_by_start l).
Proof.
  induction l as [|x l IH]; simpl; [reflexivity|].
  rewrite <- insert_by_start_perm. now apply perm_skip.
Qed.

Lemma insert_by_start_sorted (x : nat * list TranslationResult) l :
  StronglySorted le (map fst l) ->
  StronglySorted le (map fst (insert_by_start x l)).
Proof.
  induction l as [|y l IH]; simpl; intros Hs.
  - constructor; constructor.
  - apply StronglySorted_inv in Hs as [Hs Hy].
    destruct (fst x <=? fst y) eqn:E.
    + apply Nat.leb_le in E. simpl. constructor.
      * now constructor.
      * constructor; [assumption|].
        eapply Forall_impl; [|exact Hy]. simpl. intros k Hk. lia.
    + apply Nat.leb_gt in E. simpl. constructor; [now apply IH|].
      rewrite Forall_map.
      eapply Permutation_Forall; [apply insert_by_start_perm|].
      constructor; [lia | now rewrite <- Forall_map].
Qed.

Lemma sort_by_start_sorted l : StronglySorted le (map fst (sort_by_start l)).
Proof.
  induction l as [|x l IH]; simpl; [constructor|].
  now apply insert_by_start_sorted.
Qed.

(** A list whose starts increase strictly is the only sorted arrangement of
    its elements. *)
Lemma sorted_by_start_unique (l0 : list (nat * list TranslationResult)) :
  StronglySorted lt (map fst l0) ->
  forall l1, StronglySorted le (map fst l1) -> Permutation l0 l1 -> l0 = l1.
Proof.
  induction l0 as [|a t IH]; intros H0 l1 H1 Hp.
  - now apply Permutation_nil in Hp.
  - destruct l1 as [|b t1]; [now apply Permutation_sym, Permutation_nil in Hp|].
    simpl in H0, H1.
    apply StronglySorted_inv in H0 as [H0 Ha].
    apply StronglySorted_inv in H1 as [H1 Hb].
    rewrite Forall_map in Ha, Hb. rewrite Forall_forall in Ha, Hb.
    assert (Eab : a = b).
    { assert (Hina : In a (b :: t1))
        by (eapply Permutation_in; [exact Hp | now left]).
      assert (Hinb : In b (a :: t))
        by (eapply Permutation_in; [apply Permutation_sym; exact Hp | now left]).
      destruct Hina as [-> | Hina]; [reflexivity|].
      destruct Hinb as [-> | Hinb]; [reflexivity|].
      specialize (Ha _ Hinb). specialize (Hb _ Hina). lia. }
    subst b. f_equal. apply IH; try assumption.
    now apply Permutation_cons_inv in Hp.
Qed.

Lemma sort_by_start_of_perm (l0 l : list (nat * list TranslationResult)) :
  StronglySorted lt (map fst l0) -> Permutation l0 l -> sort_by_start l = l0.
Proof.
  intros H0 Hp. symmetry. apply sorted_by_start_unique; [assumption | |].
  - apply sort_by_start_sorted.
  - rewrite Hp. apply sort_by_start_perm.
Qed.

(** ** Partitioning *)

Lemma split_batch_nonempty (n : nat) :
  forall fuel b sub, In sub (split_batch fuel (S n) b) -> source sub <> [].
Proof.
  induction fuel as [|fuel IH]; intros b sub; simpl; [intros []|].
  destruct (source b) as [|s src] eqn:Es; [intros []|].
  intros [<- | Hin]; [|now apply IH in Hin].
  simpl. rewrite Es. discriminate.
Qed.

Lemma partition_nonempty (n : nat) (b sub : Batch) :
  In sub (partition n b) -> source sub <> [].
Proof.
  destruct n as [|n]; simpl.
  - destruct (source b) eqn:Es; [intros []|].
    intros [<- | []]. rewrite Es. discriminate.
  - apply split_batch_nonempty.
Qed.

Lemma split_batch_size (n : nat) :
  forall fuel b sub, In sub (split_batch fuel (S n) b) ->
                     List.length (source sub) <= S n.
Proof.
  induction fuel as [|fuel IH]; intros b sub; simpl; [intros []|].
  destruct (source b) as [|s src] eqn:Es; [intros []|].
  intros [<- | Hin]; [|now apply IH in Hin].
  unfold take_batch. cbn [source]. rewrite length_firstn. lia.
Qed.

Lemma split_batch_concat (n : nat) :
  forall fuel b, List.length (source b) <= fuel ->
                 List.concat (map source (split_batch fuel (S n) b)) = source b.
Proof.
  induction fuel as [|fuel IH]; intros b Hlen; simpl.
  - destruct (source b); [reflexivity | simpl in Hlen; lia].
  - destruct (source b) as [|s src] eqn:Es; [reflexivity|].
    cbn [map List.concat]. rewrite IH.
    + unfold take_batch, drop_batch. cbn [source]. rewrite Es. apply firstn_skipn.
    + unfold drop_batch. cbn [source]. rewrite Es, length_skipn.
      simpl in Hlen |- *. lia.
Qed.

(** Nothing is lost or reordered by the partitioning. *)
Lemma partition_concat (n : nat) (b : Batch) :
  List.concat (map source (partition n b)) = source b.
Proof.
  destruct n as [|n]; simpl.
  - destruct (source b) eqn:Es; [reflexivity|]. simpl. rewrite Es. apply app_nil_r.
  - now apply split_batch_concat.
Qed.

(** Without a target prefix no sub-batch has one. *)
Lemma partition_no_prefix (n : nat) (b : Batch) :
  target_prefix b = [] ->
  Forall (fun w => target_prefix w = []) (partition n b).
Proof.
  destruct n as [|n]; simpl; intros Hb.
  - destruct (source b); repeat constructor. assumption.
  - generalize (List.length (source b)). intros fuel.
    revert b Hb. induction fuel as [|fuel IH]; intros b Hb; simpl; [constructor|].
    destruct (source b); constructor.
    + simpl. rewrite Hb. now rewrite ?firstn_nil.
    + apply IH. simpl. rewrite Hb. now rewrite ?skipn_nil.
Qed.

Lemma tag_ranges_subs (start : nat) (subs : list Batch) :
  map snd (tag_ranges start subs) = subs.
Proof.
  revert start. induction subs as [|sub rest IH]; intros start; simpl;
    [reflexivity | now rewrite IH].
Qed.

Lemma tag_ranges_from (subs : list Batch) :
  forall start, Forall (le start) (map fst (tag_ranges start subs)).
Proof.
  induction subs as [|sub rest IH]; intros start; simpl; constructor; [lia|].
  eapply Forall_impl; [|apply IH]. simpl. intros k Hk. lia.
Qed.

Lemma tag_ranges_increasing (subs : list Batch) :
  (forall sub, In sub subs -> source sub <> []) ->
  forall start, StronglySorted lt (map fst (tag_ranges start subs)).
Proof.
  induction subs as [|sub rest IH]; intros Hne start; simpl; constructor.
  - apply IH. intros sub' Hin. apply Hne. now right.
  - assert (Hsub : source sub <> []) by (apply Hne; now left).
    eapply Forall_impl; [|apply tag_ranges_from]. simpl. intros k Hk.
    destruct (source sub); [contradiction | simpl in Hk; lia].
Qed.

(** ** Position-by-position answers survive partitioning *)

Section Positional.

Variable R : TranslationOptions -> list string -> option (list string) ->
             TranslationResult -> Prop.
Variable options : TranslationOptions.

Lemma positional_nil (b : Batch) : source b = [] -> positional R options b [].
Proof.
  intros E. split; [now rewrite E|]. intros [|i] s r _; discriminate.
Qed.

Lemma positional_app (n : nat) (b : Batch) (rs1 rs2 : list TranslationResult) :
  positional R options (take_batch n b) rs1 ->
  positional R options (drop_batch n b) rs2 ->
  positional R options b (rs1 ++ rs2).
Proof.
  unfold positional, take_batch, drop_batch. cbn [source target_prefix].
  intros [L1 H1] [L2 H2]. split.
  - rewrite length_app, L1, L2, <- length_app. now rewrite firstn_skipn.
  - intros i s r Hs Hr.
    rewrite length_firstn in L1. rewrite length_skipn in L2.
    destruct (Nat.lt_ge_cases i (List.length rs1)) as [Hlt | Hge].
    + rewrite nth_error_app1 in Hr by assumption.
      assert (Hin : (i <? n) = true) by (apply Nat.ltb_lt; lia).
      specialize (H1 i s r). rewrite !nth_error_firstn, Hin in H1. now apply H1.
    + rewrite nth_error_app2 in Hr by assumption.
      assert (Hr2 : i - List.length rs1 < List.length rs2).
      { apply nth_error_Some. now rewrite Hr. }
      assert (E : n + (i - List.length rs1) = i) by lia.
      specialize (H2 (i - List.length rs1) s r).
      rewrite !nth_error_skipn, E in H2. now apply H2.
Qed.

Lemma split_batch_positional (n : nat) :
  forall fuel b rss,
    List.length (source b) <= fuel ->
    Forall2 (positional R options) (split_batch fuel (S n) b) rss ->
    positional R options b (List.concat rss).
Proof.
  induction fuel as [|fuel IH]; intros b rss Hlen; simpl.
  - intros F. inversion F; subst. apply positional_nil.
    destruct (source b); [reflexivity | simpl in Hlen; lia].
  - destruct (source b) as [|s src] eqn:Es.
    + intros F. inversion F; subst. now apply positional_nil.
    + intros F. inversion F as [|sub rs subs rss' Hhd Htl]; subst.
      cbn [List.concat]. apply positional_app with (n := S n); [assumption|].
      apply IH; [|assumption].
      unfold drop_batch. cbn [source]. rewrite Es, length_skipn.
      simpl in Hlen |- *. lia.
Qed.

Lemma partition_positional (n : nat) (b : Batch) (rss : list (list TranslationResult)) :
  Forall2 (positional R options) (partition n b) rss ->
  positional R options b (List.concat rss).
Proof.
  destruct n as [|n]; simpl.
  - destruct (source b) eqn:Es; intros F.
    + inversion F; subst. now apply positional_nil.
    + inversion F as [|sub rs subs rss' Hhd Htl]; subst.
      inversion Htl; subst. cbn [List.concat]. now rewrite app_nil_r.
  - now apply split_batch_positional.
Qed.

End Positional.

(** ** Waiting for the Workers *)

Lemma await_all_perm (cs cs' : list completed) :
  Permutation cs cs' ->
  forall done', await_all cs' = Ok done' ->
  exists done, await_all cs = Ok done /\ Permutation done done'.
Proof.
  induction 1 as [|c l l' Hp IH|c1 c2 l|l l' l'' Hp1 IH1 Hp2 IH2]; intros done'; simpl.
  - intros E. injection E as <-. now exists [].
  - destruct (outcome c) as [rs|e]; simpl; [|discriminate].
    destruct (await_all l') as [more'|e] eqn:E'; simpl; [|discriminate].
    intros E. injection E as <-.
    destruct (IH more' eq_refl) as (more & -> & Hm). simpl.
    eexists. split; [reflexivity | now apply perm_skip].
  - destruct (outcome c1) as [rs1|e]; simpl; [|discriminate].
    destruct (outcome c2) as [rs2|e]; simpl; [|discriminate].
    destruct (await_all l) as [more|e]; simpl; [|discriminate].
    intros E. injection E as <-.
    eexists. split; [reflexivity | apply perm_swap].
  - intros E. destruct (IH2 _ E) as (mid & Emid & Pmid).
    destruct (IH1 _ Emid) as (done & Edone & Pdone).
    exists done. split; [assumption | now transitivity mid].
Qed.

Lemma await_all_fault_perm (cs cs' : list completed) :
  Permutation cs cs' ->
  forall e', await_all cs' = Raise e' -> exists e, await_all cs = Raise e.
Proof.
  intros Hp e' E'. destruct (await_all cs) as [done|e] eqn:E; [|now exists e].
  destruct (await_all_perm _ _ (Permutation_sym Hp) _ E) as (d & Ed & _).
  congruence.
Qed.

Lemma await_all_raises (cs : list completed) (e : exn) :
  await_all cs = Raise e -> exists c, In c cs /\ outcome c = Raise e.
Proof.
  induction cs as [|c cs IH]; simpl; [discriminate|].
  destruct (outcome c) as [rs|e'] eqn:Ec; simpl.
  - destruct (await_all cs) as [more|e'']; simpl; [discriminate|].
    intros X. destruct (IH X) as (c' & Hin & Hc'). exists c'. split; [now right | assumption].
  - intros X. injection X as <-. exists c. split; [now left | assumption].
Qed.

Section Await.

Variable decode : TranslationOptions -> Batch -> res (list TranslationResult).
Variable options : TranslationOptions.

Lemma await_all_run (tagged : list (nat * Batch)) :
  forall done,
    await_all (map (run_worker decode options) tagged) = Ok done ->
    map fst done = map fst tagged /\
    Forall2 (fun sub rs => decode options sub = Ok rs)
            (map snd tagged) (map snd done).
Proof.
  induction tagged as [|t tagged IH]; simpl; intros done.
  - intros E. injection E as <-. split; [reflexivity | constructor].
  - destruct (decode options (snd t)) as [rs|e] eqn:Ed; simpl; [|discriminate].
    destruct (await_all _) as [more|e]; simpl; [|discriminate].
    intros E. injection E as <-.
    destruct (IH more eq_refl) as [Hk Hf]. simpl. split.
    + now rewrite Hk.
    + now constructor.
Qed.

Lemma await_all_total (tagged : list (nat * Batch)) :
  (forall sub, In sub (map snd tagged) -> exists rs, decode options sub = Ok rs) ->
  exists done, await_all (map (run_worker decode options) tagged) = Ok done.
Proof.
  induction tagged as [|t tagged IH]; simpl; intros Hall; [now eexists|].
  destruct (Hall (snd t) (or_introl eq_refl)) as (rs & ->). simpl.
  destruct IH as (more & ->); [intros sub Hin; apply Hall; now right|].
  simpl. now eexists.
Qed.

End Await.

(** ** [submit] and [consume_file] *)

Lemma count_tokens_app (l1 l2 : list (list string)) :
  count_tokens (l1 ++ l2) = (count_tokens l1 + count_tokens l2)%N.
Proof.
  unfold count_tokens. rewrite map_app, list_sum_app. lia.
Qed.

Lemma py_len_not_none (o : pyobj) (n : nat) : py_len o = Ok n -> is_none o = false.
Proof. destruct o; simpl; intros E; (discriminate E || reflexivity). Qed.

Section PoolFacts.

Variable decode : TranslationOptions -> Batch -> res (list TranslationResult).
Variable completion_order : forall A : Type, list A -> list A.

Lemma submit_mismatch (p : pool) (src tp : TranslationInput)
    (options : TranslationOptions) :
  src <> [] -> List.length tp <> 0 -> List.length tp <> List.length src ->
  submit decode completion_order p src tp options =
  (p, Raise (invalid_argument prefix_mismatch)).
Proof.
  intros Hs H0 Hl. unfold submit. destruct src as [|s src]; [contradiction|].
  apply Nat.eqb_neq in H0, Hl. now rewrite H0, Hl.
Qed.

Section Reordering.

Hypothesis Hreorders : reorders completion_order.

(** Whatever the completion order, a result list that comes back answers
    the batch position by position. *)
Lemma submit_answers
    (R : TranslationOptions -> list string -> option (list string) ->
         TranslationResult -> Prop)
    (p p' : pool) (src tp : TranslationInput) (options : TranslationOptions)
    (rs : list TranslationResult) :
  engine_contract decode R ->
  submit decode completion_order p src tp options = (p', Ok rs) ->
  positional R options (mkBatch src tp) rs.
Proof.
  intros Hengine. unfold submit.
  destruct src as [|s src'] eqn:Esrc.
  { intros E. injection E as _ <-. now apply positional_nil. }
  rewrite <- Esrc. clear Esrc s src'.
  destruct (negb _ && negb _); [discriminate|].
  set (n := if (max_batch_size options =? 0)%N then _ else _).
  set (tagged := tag_ranges 0 (partition n (mkBatch src tp))).
  intros E. injection E as _ E.
  destruct (await_all _) as [done|e] eqn:Ea; simpl in E; [|discriminate].
  injection E as <-.
  destruct (await_all_perm _ _ (Hreorders _ (map (run_worker decode options) tagged)) _ Ea)
    as (done0 & E0 & Hp).
  destruct (await_all_run decode options tagged _ E0) as [Hk Hf].
  unfold reassemble. rewrite (sort_by_start_of_perm done0); [| |assumption].
  - apply partition_positional with (n := n).
    unfold tagged in Hf. rewrite tag_ranges_subs in Hf.
    eapply Forall2_impl; [|exact Hf]. simpl. intros sub rs. apply Hengine.
  - rewrite Hk. apply tag_ranges_increasing.
    intros sub. apply partition_nonempty.
Qed.

(** An engine that answers every sub-batch lets every well-shaped request
    complete. *)
Lemma submit_total (p : pool) (src tp : TranslationInput)
    (options : TranslationOptions) :
  (forall sub, exists rs, decode options sub = Ok rs) ->
  tp = [] \/ List.length tp = List.length src ->
  exists p' rs, submit decode completion_order p src tp options = (p', Ok rs).
Proof.
  intros Hdec Hshape. unfold submit.
  destruct src as [|s src'] eqn:Esrc; [now do 2 eexists|].
  rewrite <- Esrc in Hshape |- *. clear Esrc s src'.
  assert (Hc : negb (List.length tp =? 0) &&
               negb (List.length tp =? List.length src) = false).
  { destruct Hshape as [-> | ->]; [reflexivity|].
    rewrite Nat.eqb_refl. apply andb_false_r. }
  rewrite Hc.
  set (n := if (max_batch_size options =? 0)%N then _ else _).
  set (tagged := tag_ranges 0 (partition n (mkBatch src tp))).
  destruct (await_all_total decode options tagged) as (done0 & E0).
  { intros sub _. apply Hdec. }
  destruct (await_all (completion_order _ _)) as [done|e] eqn:Ea.
  - simpl. now do 2 eexists.
  - destruct (await_all_fault_perm _ _
                (Hreorders _ (map (run_worker decode options) tagged)) _ Ea)
      as (e0 & Ee0). congruence.
Qed.

(** The results of a request are those of the engine on its sub-batches,
    in the order of the sub-batches. *)
Lemma submit_engine_results (p p' : pool) (src tp : TranslationInput)
    (options : TranslationOptions) (rs : list TranslationResult) :
  submit decode completion_order p src tp options = (p', Ok rs) ->
  exists rss,
    Forall2 (fun sub rs' => decode options sub = Ok rs')
      (partition (if (max_batch_size options =? 0)%N
                  then default_batch_size p
                  else N.to_nat (max_batch_size options))
                 (mkBatch src tp)) rss /\
    rs = List.concat rss.
Proof.
  unfold submit.
  destruct src as [|s src'] eqn:Esrc.
  { intros E. injection E as _ <-. exists []. split; [|reflexivity].
    now destruct (if (max_batch_size options =? 0)%N then _ else _). }
  rewrite <- Esrc. clear Esrc s src'.
  destruct (negb _ && negb _); [discriminate|].
  set (n := if (max_batch_size options =? 0)%N then _ else _).
  set (tagged := tag_ranges 0 (partition n (mkBatch src tp))).
  intros E. injection E as _ E.
  destruct (await_all _) as [done|e] eqn:Ea; simpl in E; [|discriminate].
  injection E as <-.
  destruct (await_all_perm _ _ (Hreorders _ (map (run_worker decode options) tagged)) _ Ea)
    as (done0 & E0 & Hp).
  destruct (await_all_run decode options tagged _ E0) as [Hk Hf].
  exists (map snd done0). split.
  - unfold tagged in Hf. now rewrite tag_ranges_subs in Hf.
  - unfold reassemble. rewrite (sort_by_start_of_perm done0); [reflexivity | |assumption].
    rewrite Hk. apply tag_ranges_increasing.
    intros sub. apply partition_nonempty.
Qed.

(** A request completes as soon as the engine answers its sub-batches. *)
Lemma submit_request_total (p : pool) (src tp : TranslationInput)
    (options : TranslationOptions) :
  (forall sub,
      In sub (partition (if (max_batch_size options =? 0)%N
                         then default_batch_size p
                         else N.to_nat (max_batch_size options))
                        (mkBatch src tp)) ->
      exists rs, decode options sub = Ok rs) ->
  tp = [] \/ List.length tp = List.length src ->
  exists p' rs, submit decode completion_order p src tp options = (p', Ok rs).
Proof.
  intros Hdec Hshape. unfold submit.
  destruct src as [|s src'] eqn:Esrc; [now do 2 eexists|].
  rewrite <- Esrc in Hshape, Hdec |- *. clear Esrc s src'.
  assert (Hc : negb (List.length tp =? 0) &&
               negb (List.length tp =? List.length src) = false).
  { destruct Hshape as [-> | ->]; [reflexivity|].
    rewrite Nat.eqb_refl. apply andb_false_r. }
  rewrite Hc.
  set (n := if (max_batch_size options =? 0)%N then _ else _) in *.
  set (tagged := tag_ranges 0 (partition n (mkBatch src tp))).
  destruct (await_all_total decode options tagged) as (done0 & E0).
  { unfold tagged. rewrite tag_ranges_subs. exact Hdec. }
  destruct (await_all (completion_order _ _)) as [done|e] eqn:Ea.
  - simpl. now do 2 eexists.
  - destruct (await_all_fault_perm _ _
                (Hreorders _ (map (run_worker decode options) tagged)) _ Ea)
      as (e0 & Ee0). congruence.
Qed.

(** A request fails on a target prefix of the wrong length or with the
    fault of the engine on one of its sub-batches. *)
Lemma submit_raises (p p' : pool) (src tp : TranslationInput)
    (options : TranslationOptions) (e : exn) :
  submit decode completion_order p src tp options = (p', Raise e) ->
  e = invalid_argument prefix_mismatch \/
  exists sub,
    In sub (partition (if (max_batch_size options =? 0)%N
                       then default_batch_size p
                       else N.to_nat (max_batch_size options))
                      (mkBatch src tp)) /\
    decode options sub = Raise e.
Proof.
  unfold submit. destruct src as [|s src'] eqn:Esrc; [discriminate|].
  rewrite <- Esrc. clear Esrc s src'.
  destruct (negb _ && negb _).
  { intros E. injection E as _ <-. now left. }
  set (n := if (max_batch_size options =? 0)%N then _ else _).
  set (tagged := tag_ranges 0 (partition n (mkBatch src tp))).
  intros E. injection E as _ E. right.
  destruct (await_all _) as [done|e'] eqn:Ea; simpl in E; [discriminate|].
  injection E as ->.
  apply await_all_raises in Ea as (c & Hin & Hc).
  apply (Permutation_in _ (Permutation_sym (Hreorders _ _))) in Hin.
  apply in_map_iff in Hin as (t & <- & Ht).
  exists (snd t). split; [|exact Hc].
  rewrite <- (tag_ranges_subs 0 (partition n (mkBatch src tp))).
  now apply in_map.
Qed.

End Reordering.

(** The count a successful run returns, given the count it started from. *)
Lemma consume_windows_count (windows : list Batch) (out_file : string)
    (options : TranslationOptions) (with_scores : bool) :
  forall p acc p' n,
    consume_windows decode completion_order p windows out_file options with_scores acc
    = (p', Ok n) ->
    n = (acc + count_tokens (List.concat (map source windows)))%N.
Proof.
  induction windows as [|w rest IH]; simpl; intros p acc p' n.
  - intros E. injection E as _ <-. unfold count_tokens. simpl. lia.
  - destruct (submit _ _ p (source w) (target_prefix w) options) as [p1 [results|e]];
      [|discriminate].
    intros E. apply IH in E. rewrite count_tokens_app. lia.
Qed.

Lemma consume_file_count (p p' : pool) (in_file out_file : string)
    (read_batch_size n : N) (options : TranslationOptions) (with_scores : bool) :
  consume_file decode completion_order p in_file out_file read_batch_size
    options with_scores = (p', Ok n) ->
  exists lines, sources p in_file = Some lines /\ n = count_tokens lines.
Proof.
  unfold consume_file. destruct (sources p in_file) as [lines|]; [|discriminate].
  intros E. apply consume_windows_count in E.
  rewrite partition_concat in E. cbn [source] in E.
  exists lines. split; [reflexivity | lia].
Qed.

Lemma consume_windows_total (Hreorders : reorders completion_order)
    (windows : list Batch) (out_file : string)
    (options : TranslationOptions) (with_scores : bool) :
  (forall sub, exists rs, decode options sub = Ok rs) ->
  Forall (fun w => target_prefix w = []) windows ->
  forall p acc, exists p' n,
    consume_windows decode completion_order p windows out_file options with_scores acc
    = (p', Ok n).
Proof.
  intros Hdec. induction 1 as [|w rest Hw _ IH]; intros p acc; simpl.
  - now do 2 eexists.
  - destruct (submit_total Hreorders p (source w) (target_prefix w) options Hdec)
      as (p1 & rs & ->); [now left|]. apply IH.
Qed.

End PoolFacts.

(** ** The engines and completion orders of the examples *)

Lemma in_order_reorders : reorders in_order.
Proof. intros A l. reflexivity. Qed.

Lemma last_first_reorders : reorders last_first.
Proof. intros A l. apply Permutation_rev. Qed.

Lemma echo_from_length (b : Batch) (l : list (list string)) :
  forall i, List.length (echo_from b i l) = List.length l.
Proof. induction l as [|s l IH]; intros i; simpl; [reflexivity | now rewrite IH]. Qed.

Lemma echo_from_nth (b : Batch) (l : list (list string)) :
  forall k i s r,
    nth_error l i = Some s -> nth_error (echo_from b k l) i = Some r ->
    r = echo_result b (k + i) s.
Proof.
  induction l as [|x l IH]; intros k [|i] s r; simpl; try discriminate.
  - intros E1 E2. injection E1 as ->. injection E2 as <-. now rewrite Nat.add_0_r.
  - intros E1 E2. rewrite <- Nat.add_succ_comm. now apply IH.
Qed.

Lemma echo_engine_contract : engine_contract echo_engine echoes.
Proof.
  intros options b rs E. injection E as <-. split.
  - apply echo_from_length.
  - intros i s r Hs Hr. rewrite (echo_from_nth b (source b) 0 i s r Hs Hr).
    unfold echoes, echo_result. simpl. f_equal. f_equal.
    destruct (nth_error (target_prefix b) i) as [t|] eqn:Et.
    + now apply nth_error_nth.
    + apply nth_overflow. now apply nth_error_None.
Qed.

(** * [TranslatorWrapper] over the pool model *)

Section ModelClaims.

Variable decode : TranslationOptions -> Batch -> res (list TranslationResult).
Variable completion_order : forall A : Type, list A -> list A.
Variable default_options : TranslationOptions.

(** C1.  For a non-empty source batch of [str] tokens, with or without a
    target prefix, [translate_batch] either raises or returns a list with
    one element per source sentence, the [i]-th showing the result that
    the engine's contract relates to the UTF-8 tokens of the [i]-th
    sentence (and its target prefix), whatever the order in which the
    Workers complete; it does return when the tokens can be encoded,
    the prefix is absent or as long as the batch, and the engine answers
    the sub-batches of the request with well-formed results; and no
    vector is read past its end when the results of the engine have
    vectors that go together. *)
Theorem translate_batch_complete
    (R : TranslationOptions -> list string -> option (list string) ->
         TranslationResult -> Prop)
    (Hreorders : reorders completion_order)
    (Hengine : engine_contract decode R)
    (p : pool)
    (batch : list (list (list N)))
    (prefix : option (list (option (list (list N)))))
    (mbs bs nh : N) (lp : spec_float) (maxl minl : N)
    (vmap ra ralt : bool) (topk : N) (temp : spec_float)
    (Hnonempty : batch <> []) :
  let call :=
    translate_batch (H := model_pool decode completion_order) default_options
      p (py_batch batch) (py_prefix prefix)
      mbs bs nh lp maxl minl vmap ra ralt topk temp in
  let options := mkOptions mbs bs lp topk temp maxl minl nh vmap ra ralt in
  let size := if (mbs =? 0)%N then default_batch_size p else N.to_nat mbs in
  ((exists e, snd call = Raise e) \/
   (exists source_input target_prefix_input results outs,
       utf8_batch batch = Some source_input /\
       utf8_prefix prefix = Some target_prefix_input /\
       positional R options (mkBatch source_input target_prefix_input) results /\
       snd call = Ok (PyList outs) /\
       List.length outs = List.length batch /\
       Forall2 shows_result results outs))
  /\
  (forall source_input target_prefix_input,
      utf8_batch batch = Some source_input ->
      utf8_prefix prefix = Some target_prefix_input ->
      target_prefix_input = [] \/
      List.length target_prefix_input = List.length batch ->
      (forall sub,
          In sub (partition size (mkBatch source_input target_prefix_input)) ->
          exists rs, decode options sub = Ok rs /\ Forall well_formed_result rs) ->
      exists outs, snd call = Ok (PyList outs))
  /\
  (forall source_input target_prefix_input,
      utf8_batch batch = Some source_input ->
      utf8_prefix prefix = Some target_prefix_input ->
      (forall sub,
          In sub (partition size (mkBatch source_input target_prefix_input)) ->
          decode options sub <> Raise undefined /\
          forall rs, decode options sub = Ok rs -> Forall consistent_result rs) ->
      snd call <> Raise undefined).
Proof.
  intros call options size.
  assert (Hlen : py_len (py_batch batch) = Ok (S (pred (List.length batch)))).
  { unfold py_batch. simpl. rewrite length_map.
    destruct batch; [contradiction | reflexivity]. }
  pose proof (batch_to_vector_py_batch batch false) as Es.
  pose proof (batch_to_vector_py_prefix prefix) as Et.
  split; [|split].
  - destruct (utf8_batch batch) as [si|] eqn:Eb.
    2:{ left. exists cast_error. unfold call.
        erewrite translate_batch_source_raises; [reflexivity | exact Hlen | exact Es]. }
    destruct (utf8_prefix prefix) as [ti|] eqn:Ep.
    2:{ left. exists cast_error. unfold call.
        erewrite translate_batch_prefix_raises;
          [reflexivity | exact Hlen | exact Es | exact Et]. }
    unfold call.
    erewrite translate_batch_reaches_pool; [|exact Hlen|exact Es|exact Et].
    cbn [post model_pool]. fold options.
    destruct (submit decode completion_order p si ti options) as [p' [rs|e]] eqn:Esub;
      [|left; now exists e].
    cbn [results_to_py snd].
    destruct (py_results rs) as [out|e] eqn:Eout; [|left; now exists e].
    right. destruct (py_results_ok _ _ Eout) as (outs & -> & Hshow).
    pose proof (submit_answers _ _ Hreorders _ _ _ _ _ _ _ Hengine Esub) as Hpos.
    exists si, ti, rs, outs. repeat split; try assumption; try apply Hpos.
    apply Forall2_length in Hshow. rewrite <- Hshow.
    destruct Hpos as [-> _]. cbn [PoolModel.source].
    apply (traverse_length _ _ _ Eb).
  - intros si ti Eb Ep Hshape Hdec. rewrite Eb in Es. rewrite Ep in Et.
    unfold call.
    erewrite translate_batch_reaches_pool; [|exact Hlen|exact Es|exact Et].
    cbn [post model_pool]. fold options.
    assert (Hshape' : ti = [] \/ List.length ti = List.length si).
    { destruct Hshape as [-> | ->]; [now left | right].
      symmetry. apply (traverse_length _ _ _ Eb). }
    destruct (submit_request_total decode completion_order Hreorders p si ti options)
      as (p' & rs & Esub); [|exact Hshape'|].
    { intros sub Hin. destruct (Hdec sub Hin) as (rs & Ers & _). now exists rs. }
    rewrite Esub. cbn [results_to_py snd].
    destruct (submit_engine_results _ _ Hreorders _ _ _ _ _ _ Esub) as (rss & Hf & ->).
    apply py_results_total.
    apply Forall_concat.
    assert (Hf' : Forall2 (fun sub rs' => decode options sub = Ok rs')
                    (partition size (mkBatch si ti)) rss) by exact Hf.
    clear Hf Esub. revert Hdec Hf'.
    generalize (partition size (mkBatch si ti)) as subs.
    intros subs Hdec Hf.
    induction Hf as [|sub rs' subs rss Hsub _ IH]; constructor.
    + destruct (Hdec sub (or_introl eq_refl)) as (rs & Ers & Hwf). congruence.
    + apply IH. intros sub' Hin. apply Hdec. now right.
  - intros si ti Eb Ep Hdec. rewrite Eb in Es. rewrite Ep in Et.
    unfold call.
    erewrite translate_batch_reaches_pool; [|exact Hlen|exact Es|exact Et].
    cbn [post model_pool]. fold options.
    destruct (submit decode completion_order p si ti options) as [p' [rs|e]] eqn:Esub;
      cbn [results_to_py snd].
    + apply py_results_defined.
      destruct (submit_engine_results _ _ Hreorders _ _ _ _ _ _ Esub) as (rss & Hf & ->).
      apply Forall_concat.
      assert (Hf' : Forall2 (fun sub rs' => decode options sub = Ok rs')
                      (partition size (mkBatch si ti)) rss) by exact Hf.
      clear Hf Esub. revert Hdec Hf'.
      generalize (partition size (mkBatch si ti)) as subs.
      intros subs Hdec Hf.
      induction Hf as [|sub rs' subs rss Hsub _ IH]; constructor.
      * now apply (Hdec sub (or_introl eq_refl)).
      * apply IH. intros sub' Hin. apply Hdec. now right.
    + intros X. injection X as ->.
      destruct (submit_raises _ _ Hreorders _ _ _ _ _ _ Esub) as [X | (sub & Hin & Hsub)];
        [discriminate|].
      now apply (Hdec sub Hin).
Qed.

(** C3, as the code has it.  With a non-empty source and a target prefix
    of a length that is neither 0 nor the length of the source, the call
    raises and no Worker is invoked; when both arguments convert, the
    error is the invalid-argument error of the pool.  A target prefix of
    length 0 reaches the pool as an absent one. *)
Theorem translate_batch_prefix_mismatch
    (p : pool) (source target_prefix : pyobj) (n m : nat)
    (mbs bs nh : N) (lp : spec_float) (maxl minl : N)
    (vmap ra ralt : bool) (topk : N) (temp : spec_float)
    (Hlen : py_len source = Ok (S n))
    (Hprefix : py_len target_prefix = Ok m)
    (Hpresent : m <> 0)
    (Hdiffers : m <> S n) :
  exists e,
    translate_batch (H := model_pool decode completion_order) default_options
      p source target_prefix mbs bs nh lp maxl minl vmap ra ralt topk temp
    = (p, Raise e)
    /\
    forall source_input target_prefix_input,
      batch_to_vector source false = Ok source_input ->
      batch_to_vector target_prefix true = Ok target_prefix_input ->
      e = invalid_argument prefix_mismatch.
Proof.
  destruct (batch_to_vector source false) as [si|e] eqn:Es.
  2:{ exists e. split; [|discriminate].
      now apply translate_batch_source_raises with (n := n). }
  destruct (batch_to_vector target_prefix true) as [ti|e] eqn:Et.
  2:{ exists e. split; [|discriminate].
      now apply translate_batch_prefix_raises with (n := n) (source_input := si). }
  exists (invalid_argument prefix_mismatch). split; [|reflexivity].
  erewrite translate_batch_reaches_pool; [|exact Hlen|exact Es|exact Et].
  cbn [post model_pool].
  pose proof (batch_to_vector_length _ _ _ (py_len_not_none _ _ Hlen) Es) as El.
  pose proof (batch_to_vector_length _ _ _ (py_len_not_none _ _ Hprefix) Et) as Em.
  rewrite Hlen in El. rewrite Hprefix in Em.
  injection El as El. injection Em as Em.
  rewrite submit_mismatch; [reflexivity | | lia | lia].
  intros ->. discriminate El.
Qed.

(** C7, as the code has it.  A successful [translate_file] returns a tuple
    of one element, the number of source tokens of all the lines of the
    input, which is the sum of the counts of the windows read. *)
Theorem translate_file_token_count
    (p p' : pool) (in_file out_file : string) (mbs rbs bs nh : N) (lp : spec_float)
    (maxl minl : N) (vmap with_scores : bool) (topk : N) (temp : spec_float)
    (v : pyobj)
    (Hsuccess :
       translate_file (H := model_pool decode completion_order) default_options
         p in_file out_file mbs rbs bs nh lp maxl minl vmap with_scores topk temp
       = (p', Ok v)) :
  exists lines,
    sources p in_file = Some lines /\
    v = PyTuple [PyInt (Z.of_N (count_tokens lines))] /\
    forall size,
      count_tokens lines =
      count_tokens (List.concat (map PoolModel.source (partition size (mkBatch lines [])))).
Proof.
  rewrite translate_file_reaches_pool in Hsuccess. cbn [consume_text_file model_pool] in Hsuccess.
  destruct (consume_file _ _ _ _ _ _ _ _) as [p1 [k|e]] eqn:Ec; [|discriminate].
  simpl in Hsuccess. injection Hsuccess as _ <-.
  apply consume_file_count in Ec as (lines & El & ->).
  exists lines. repeat split; [assumption|].
  intros size. now rewrite partition_concat.
Qed.

(** A run over an existing input completes when the engine answers every
    sub-batch. *)
Lemma translate_file_total (Hreorders : reorders completion_order)
    (p : pool) (in_file out_file : string) (mbs rbs bs nh : N) (lp : spec_float)
    (maxl minl : N) (vmap with_scores : bool) (topk : N) (temp : spec_float)
    (lines : list (list string)) :
  sources p in_file = Some lines ->
  (forall options sub, exists rs, decode options sub = Ok rs) ->
  exists p' v,
    translate_file (H := model_pool decode completion_order) default_options
      p in_file out_file mbs rbs bs nh lp maxl minl vmap with_scores topk temp
    = (p', Ok v).
Proof.
  intros El Hdec. rewrite translate_file_reaches_pool.
  cbn [consume_text_file model_pool]. unfold consume_file. rewrite El.
  match goal with
  | |- context [consume_windows _ _ ?q ?ws ?o ?opts ?sc ?a] =>
      assert (Hws : Forall (fun w => target_prefix w = []) ws);
      [| destruct (consume_windows_total decode completion_order Hreorders ws o opts sc
                     (Hdec opts) Hws q a) as (p1 & k & ->)]
  end.
  - now apply partition_no_prefix.
  - simpl. now do 2 eexists.
Qed.

End ModelClaims.

(** * The wrapper at work *)

Open Scope string_scope.

(** The sample batch through a pool whose Workers complete last first, in
    sub-batches of two. *)
Example translate_batch_sample :
  translate_batch (H := model_pool echo_engine last_first) binding_defaults
    (fresh_pool no_files) sample_source sample_prefix
    2 2 1 (S754_zero false) 250 1 false false false 1 (S754_zero false)
  = (mkPool 0
       [mkBatch [["bar"]] [[]];
        mkBatch [["hello"; "world"]; ["foo"]] [[]; ["le"]]]
       no_files (fun _ => []),
     Ok (PyList
           [PyList [PyDict [(PyStr "score", PyFloat (S754_zero false));
                            (PyStr "tokens", PyList [PyStr "hello"; PyStr "world"])]];
            PyList [PyDict [(PyStr "score", PyFloat (S754_zero false));
                            (PyStr "tokens", PyList [PyStr "le"; PyStr "foo"])]];
            PyList [PyDict [(PyStr "score", PyFloat (S754_zero false));
                            (PyStr "tokens", PyList [PyStr "bar"])]]])).
Proof. reflexivity. Qed.

(** A fault of the engine is what the caller gets. *)
Example translate_batch_fault :
  snd (translate_batch (H := model_pool broken_engine in_order) binding_defaults
         (fresh_pool no_files) sample_source PyNone
         0 2 1 (S754_zero false) 250 1 false false false 1 (S754_zero false))
  = Raise (engine_fault "decode").
Proof. reflexivity. Qed.

(** A target prefix that is not a list at all: an error with a source to
    translate, unnoticed without one. *)
Example malformed_prefix_with_source :
  translate_batch (H := model_pool echo_engine in_order) binding_defaults
    (fresh_pool no_files) sample_source (PyInt 3)
    0 2 1 (S754_zero false) 250 1 false false false 1 (S754_zero false)
  = (fresh_pool no_files, Raise type_error).
Proof. reflexivity. Qed.

Example malformed_prefix_without_source :
  translate_batch (H := model_pool echo_engine in_order) binding_defaults
    (fresh_pool no_files) (PyList []) (PyInt 3)
    0 2 1 (S754_zero false) 250 1 false false false 1 (S754_zero false)
  = (fresh_pool no_files, Ok (PyList [])).
Proof. reflexivity. Qed.

(** Five lines read two at a time, with scores. *)
Example translate_file_sample :
  let call :=
    translate_file (H := model_pool echo_engine last_first) binding_defaults
      (fresh_pool (one_file "in" sample_lines)) "in" "out"
      2 0 2 1 (S754_zero false) 250 1 false true 1 (S754_zero false) in
  snd call = Ok (PyTuple [PyInt 7]) /\
  map PoolModel.source (worker_log (fst call)) =
    [[["a"; "b"]; ["c"]]; [[]; ["d"; "e"; "f"]]; [["g"]]] /\
  sinks (fst call) "out" =
    [(Some (S754_zero false), ["a"; "b"]); (Some (S754_zero false), ["c"]);
     (Some (S754_zero false), []); (Some (S754_zero false), ["d"; "e"; "f"]);
     (Some (S754_zero false), ["g"])].
Proof. repeat split. Qed.

Example translate_file_missing_input :
  snd (translate_file (H := model_pool echo_engine in_order) binding_defaults
         (fresh_pool no_files) "in" "out"
         2 0 2 1 (S754_zero false) 250 1 false true 1 (S754_zero false))
  = Raise io_fault.
Proof. reflexivity. Qed.

(** ** Strings, bytes and iterators *)

(** The length of a [str] is its number of code points, and its UTF-8
    bytes are what reaches C++: "é" is one token of two bytes. *)
Example py_len_of_e_acute : py_len (PyUnicode [233%N]) = Ok 1.
Proof. reflexivity. Qed.

Example cast_of_e_acute :
  py_list_to_std_vector (PyList [PyUnicode [233%N]]) =
  Ok [String "195"%char (String "169"%char "")].
Proof. reflexivity. Qed.

(** A [str] with a lone surrogate cannot be cast. *)
Example cast_of_surrogate :
  py_list_to_std_vector (PyList [PyUnicode [55296%N]]) = Raise cast_error.
Proof. reflexivity. Qed.

(** A [bytes] token is taken as it is; a [bytes] sentence is a sequence of
    numbers and is refused. *)
Example cast_of_bytes_token :
  py_list_to_std_vector (PyList [PyBytes "ab"]) = Ok ["ab"].
Proof. reflexivity. Qed.

Example cast_of_bytes_sentence :
  py_list_to_std_vector (PyBytes "ab") = Raise cast_error.
Proof. reflexivity. Qed.

(** A generator of strings can be iterated but has no length. *)
Example cast_of_generator :
  py_iter (PyIterator [PyStr "a"]) = Ok [PyStr "a"] /\
  py_list_to_std_vector (PyIterator [PyStr "a"]) = Raise type_error.
Proof. split; reflexivity. Qed.

(** Bytes that are not UTF-8 make no [str]. *)
Example str_of_invalid_bytes :
  std_vector_to_py_list_string ["a"; String "255"%char ""] = Raise unicode_decode_error.
Proof. reflexivity. Qed.

(** A result that comes back with such a token is lost after the Workers
    have run. *)
Example translate_batch_invalid_result :
  let call :=
    translate_batch (H := model_pool echo_engine in_order) binding_defaults
      (fresh_pool no_files) (PyList [PyList [PyBytes (String "255"%char "")]]) PyNone
      0 2 1 (S754_zero false) 250 1 false false false 1 (S754_zero false) in
  snd call = Raise unicode_decode_error /\
  worker_log (fst call) = [mkBatch [[String "255"%char ""]] []].
Proof. split; reflexivity. Qed.

(** A result with fewer scores than hypotheses is read past the end. *)
Example result_without_scores :
  result_to_py (mkResult [["a"]] [] []) = Raise undefined.
Proof. reflexivity. Qed.

(** The string "é" given as target prefix of a batch of one sentence is one
    prefix sequence, and the batch is translated. *)
Example translate_batch_string_prefix :
  snd (translate_batch (H := model_pool echo_engine in_order) binding_defaults
         (fresh_pool no_files) (PyList [PyList [PyStr "a"]]) (PyUnicode [233%N])
         0 2 1 (S754_zero false) 250 1 false false false 1 (S754_zero false))
  = Ok (PyList [PyList [PyDict [(PyStr "score", PyFloat (S754_zero false));
                                (PyStr "tokens", PyList [PyUnicode [233%N]; PyStr "a"])]]]).
Proof. reflexivity. Qed.

(** ** Where the code departs from a claim *)

(** C3 as stated fails: an empty list given as target prefix is present and
    its length, 0, differs from that of the source, 3, yet nothing is
    raised and a Worker runs the whole batch. *)
Lemma empty_prefix_list_not_rejected :
  let call :=
    translate_batch (H := model_pool echo_engine in_order) binding_defaults
      (fresh_pool no_files) sample_source (PyList [])
      0 2 1 (S754_zero false) 250 1 false false false 1 (S754_zero false) in
  py_len sample_source = Ok 3 /\
  py_len (PyList []) = Ok 0 /\
  0 <> 3 /\
  (forall e, snd call <> Raise e) /\
  worker_log (fst call) =
    [mkBatch [["hello"; "world"]; ["foo"]; ["bar"]] []].
Proof.
  repeat split; discriminate.
Qed.

(** C7 as stated fails: what [translate_file] returns for an input of seven
    tokens is the tuple [(7,)], not the number 7. *)
Lemma translate_file_returns_a_tuple :
  let call :=
    translate_file (H := model_pool echo_engine in_order) binding_defaults
      (fresh_pool (one_file "in" sample_lines)) "in" "out"
      2 0 2 1 (S754_zero false) 250 1 false false 1 (S754_zero false) in
  count_tokens sample_lines = 7%N /\
  snd call = Ok (PyTuple [PyInt 7]) /\
  snd call <> Ok (PyInt 7).
Proof.
  repeat split. discriminate.
Qed.

(** C8 as stated fails: a source list with a [None] entry after an entry
    that holds a number raises the cast error of that entry, not the
    invalid-argument error. *)
Lemma none_after_bad_entry_raises_cast_error :
  let call :=
    translate_batch (H := model_pool echo_engine in_order) binding_defaults
      (fresh_pool no_files) (PyList [PyList [PyInt 1]; PyNone]) PyNone
      0 2 1 (S754_zero false) 250 1 false false false 1 (S754_zero false) in
  In PyNone [PyList [PyInt 1]; PyNone] /\
  snd call = Raise cast_error /\
  forall what, snd call <> Raise (invalid_argument what).
Proof.
  repeat split; [right; now left | discriminate].
Qed.

(** ** The theorems at the sample inputs *)

Lemma sample_prefix_entries :
  forall h, In h [PyNone; PyList [PyStr "le"]; PyNone] -> h = PyNone \/ token_list h.
Proof.
  intros h [<- | [<- | [<- | []]]]; [now left | right | now left].
  now exists ["le"].
Qed.

Lemma echo_results_well_formed (b : Batch) (l : list (list string)) :
  Forall (Forall valid_utf8) l ->
  Forall (Forall valid_utf8) (PoolModel.target_prefix b) ->
  forall i, Forall well_formed_result (echo_from b i l).
Proof.
  intros Hs Hp. revert Hs.
  induction l as [|s l IH]; intros Hl i; simpl; constructor.
  - inversion Hl; subst. split; [split; [reflexivity | now left]|].
    simpl. constructor; [|constructor].
    apply Forall_app. split; [|assumption].
    destruct (nth_in_or_default i (PoolModel.target_prefix b) []) as [Hin | ->];
      [|constructor].
    rewrite Forall_forall in Hp. now apply Hp.
  - inversion Hl; subst. now apply IH.
Qed.

Lemma translate_batch_complete_witness :
  reorders last_first /\
  engine_contract echo_engine echoes /\
  [[code_points "hello"; code_points "world"]; [code_points "foo"]; [code_points "bar"]]
  <> [] /\
  let batch :=
    [[code_points "hello"; code_points "world"]; [code_points "foo"];
     [code_points "bar"]] in
  let prefix := Some [None; Some [code_points "le"]; None] in
  let call :=
    translate_batch (H := model_pool echo_engine last_first) binding_defaults
      (fresh_pool no_files) (py_batch batch) (py_prefix prefix)
      2 2 1 (S754_zero false) 250 1 false false false 1 (S754_zero false) in
  let options :=
    mkOptions 2 2 (S754_zero false) 1 (S754_zero false) 250 1 1 false false false in
  let size := 2 in
  ((exists e, snd call = Raise e) \/
   (exists source_input target_prefix_input results outs,
       utf8_batch batch = Some source_input /\
       utf8_prefix prefix = Some target_prefix_input /\
       positional echoes options (mkBatch source_input target_prefix_input) results /\
       snd call = Ok (PyList outs) /\
       List.length outs = List.length batch /\
       Forall2 shows_result results outs))
  /\
  (forall source_input target_prefix_input,
      utf8_batch batch = Some source_input ->
      utf8_prefix prefix = Some target_prefix_input ->
      target_prefix_input = [] \/
      List.length target_prefix_input = List.length batch ->
      (forall sub,
          In sub (partition size (mkBatch source_input target_prefix_input)) ->
          exists rs, echo_engine options sub = Ok rs /\ Forall well_formed_result rs) ->
      exists outs, snd call = Ok (PyList outs))
  /\
  (forall source_input target_prefix_input,
      utf8_batch batch = Some source_input ->
      utf8_prefix prefix = Some target_prefix_input ->
      (forall sub,
          In sub (partition size (mkBatch source_input target_prefix_input)) ->
          echo_engine options sub <> Raise undefined /\
          forall rs, echo_engine options sub = Ok rs -> Forall consistent_result rs) ->
      snd call <> Raise undefined).
Proof.
  split; [exact last_first_reorders|].
  split; [exact echo_engine_contract|].
  split; [discriminate|].
  apply (translate_batch_complete echo_engine last_first binding_defaults echoes
           last_first_reorders echo_engine_contract
           (fresh_pool no_files)
           [[code_points "hello"; code_points "world"]; [code_points "foo"];
            [code_points "bar"]]
           (Some [None; Some [code_points "le"]; None])
           2 2 1 (S754_zero false) 250 1 false false false 1 (S754_zero false)).
  discriminate.
Defined.

(** At the sample batch the conditions under which the call returns are
    met, and this is what it returns. *)
Example translate_batch_complete_sample :
  let batch :=
    [[code_points "hello"; code_points "world"]; [code_points "foo"];
     [code_points "bar"]] in
  let prefix := Some [None; Some [code_points "le"]; None] in
  py_batch batch = sample_source /\
  py_prefix prefix = sample_prefix /\
  utf8_batch batch = Some [["hello"; "world"]; ["foo"]; ["bar"]] /\
  utf8_prefix prefix = Some [[]; ["le"]; []] /\
  (forall sub,
      In sub (partition 2 (mkBatch [["hello"; "world"]; ["foo"]; ["bar"]]
                                   [[]; ["le"]; []])) ->
      exists rs,
        echo_engine binding_defaults sub = Ok rs /\ Forall well_formed_result rs) /\
  snd (translate_batch (H := model_pool echo_engine last_first) binding_defaults
         (fresh_pool no_files) (py_batch batch) (py_prefix prefix)
         2 2 1 (S754_zero false) 250 1 false false false 1 (S754_zero false))
  = Ok (PyList
          [PyList [PyDict [(PyStr "score", PyFloat (S754_zero false));
                           (PyStr "tokens", PyList [PyStr "hello"; PyStr "world"])]];
           PyList [PyDict [(PyStr "score", PyFloat (S754_zero false));
                           (PyStr "tokens", PyList [PyStr "le"; PyStr "foo"])]];
           PyList [PyDict [(PyStr "score", PyFloat (S754_zero false));
                           (PyStr "tokens", PyList [PyStr "bar"])]]]).
Proof.
  repeat split.
  intros sub [<- | [<- | []]]; (eexists; split; [reflexivity|]);
    apply echo_results_well_formed; simpl;
    repeat constructor; discriminate.
Qed.

Lemma translate_batch_prefix_mismatch_witness :
  py_len sample_source = Ok 3 /\
  py_len (PyList [PyNone; PyList [PyStr "le"]]) = Ok 2 /\
  2 <> 0 /\
  2 <> 3 /\
  exists e,
    translate_batch (H := model_pool echo_engine in_order) binding_defaults
      (fresh_pool no_files) sample_source (PyList [PyNone; PyList [PyStr "le"]])
      0 2 1 (S754_zero false) 250 1 false false false 1 (S754_zero false)
    = (fresh_pool no_files, Raise e)
    /\
    forall source_input target_prefix_input,
      batch_to_vector sample_source false = Ok source_input ->
      batch_to_vector (PyList [PyNone; PyList [PyStr "le"]]) true = Ok target_prefix_input ->
      e = invalid_argument prefix_mismatch.
Proof.
  split; [reflexivity|]. split; [reflexivity|]. split; [lia|]. split; [lia|].
  apply (translate_batch_prefix_mismatch echo_engine in_order binding_defaults
           (fresh_pool no_files) sample_source (PyList [PyNone; PyList [PyStr "le"]]) 2 2
           0 2 1 (S754_zero false) 250 1 false false false 1 (S754_zero false));
    [reflexivity | reflexivity | lia | lia].
Defined.

Lemma target_prefix_none_is_empty_sequence_witness :
  (forall h, In h [PyNone; PyList [PyStr "le"]; PyNone] -> h = PyNone \/ token_list h) /\
  exists v,
    batch_to_vector (PyList [PyNone; PyList [PyStr "le"]; PyNone]) true = Ok v /\
    List.length v = 3 /\
    (forall i, nth_error [PyNone; PyList [PyStr "le"]; PyNone] i = Some PyNone ->
               nth_error v i = Some []) /\
    (forall source n source_input mbs bs nh lp maxl minl vmap ra ralt topk temp,
        py_len source = Ok (S n) ->
        batch_to_vector source false = Ok source_input ->
        translate_batch (H := model_pool echo_engine in_order) binding_defaults
          (fresh_pool no_files) source (PyList [PyNone; PyList [PyStr "le"]; PyNone])
          mbs bs nh lp maxl minl vmap ra ralt topk temp =
        results_to_py
          (post (TranslatorPool := model_pool echo_engine in_order) (fresh_pool no_files) source_input v
             (mkOptions mbs bs lp topk temp maxl minl nh vmap ra ralt))).
Proof.
  split; [exact sample_prefix_entries|].
  exact (@target_prefix_none_is_empty_sequence pool (model_pool echo_engine in_order)
           binding_defaults (fresh_pool no_files)
           [PyNone; PyList [PyStr "le"]; PyNone] sample_prefix_entries).
Defined.

Lemma translate_batch_options_unmodified_witness :
  py_len sample_source = Ok 3 /\
  batch_to_vector sample_source false = Ok [["hello"; "world"]; ["foo"]; ["bar"]] /\
  batch_to_vector sample_prefix true = Ok [[]; ["le"]; []] /\
  exists options,
    translate_batch (H := model_pool echo_engine in_order) binding_defaults
      (fresh_pool no_files) sample_source sample_prefix
      16 4 3 (S754_finite false 3 (-1)) 100 5 true true true 8 (S754_finite false 1 (-1))
    = results_to_py
        (post (TranslatorPool := model_pool echo_engine in_order) (fresh_pool no_files) [["hello"; "world"]; ["foo"]; ["bar"]]
           [[]; ["le"]; []] options)
    /\ max_batch_size options = 16%N
    /\ beam_size options = 4%N
    /\ length_penalty options = S754_finite false 3 (-1)
    /\ sampling_topk options = 8%N
    /\ sampling_temperature options = S754_finite false 1 (-1)
    /\ max_decoding_length options = 100%N
    /\ min_decoding_length options = 5%N
    /\ num_hypotheses_opt options = 3%N
    /\ use_vmap options = true
    /\ return_attention options = true
    /\ return_alternatives options = true.
Proof.
  split; [reflexivity|]. split; [reflexivity|]. split; [reflexivity|].
  exact (@translate_batch_options_unmodified pool (model_pool echo_engine in_order)
           binding_defaults (fresh_pool no_files) sample_source sample_prefix 2
           [["hello"; "world"]; ["foo"]; ["bar"]] [[]; ["le"]; []]
           16 4 3 (S754_finite false 3 (-1)) 100 5 true true true 8
           (S754_finite false 1 (-1)) eq_refl eq_refl eq_refl).
Defined.

Lemma translate_file_token_count_witness :
  let call :=
    translate_file (H := model_pool echo_engine last_first) binding_defaults
      (fresh_pool (one_file "in" sample_lines)) "in" "out"
      2 0 2 1 (S754_zero false) 250 1 false true 1 (S754_zero false) in
  call = (fst call, Ok (PyTuple [PyInt 7])) /\
  exists lines,
    sources (fresh_pool (one_file "in" sample_lines)) "in" = Some lines /\
    PyTuple [PyInt 7] = PyTuple [PyInt (Z.of_N (count_tokens lines))] /\
    forall size,
      count_tokens lines =
      count_tokens (List.concat (map PoolModel.source (partition size (mkBatch lines [])))).
Proof.
  intros call. split; [reflexivity|].
  exact (translate_file_token_count echo_engine last_first binding_defaults
           (fresh_pool (one_file "in" sample_lines)) (fst call) "in" "out"
           2 0 2 1 (S754_zero false) 250 1 false true 1 (S754_zero false)
           (PyTuple [PyInt 7]) eq_refl).
Defined.

Lemma translate_batch_none_in_source_witness :
  In PyNone [PyList [PyStr "hello"]; PyNone; PyList [PyInt 1]] /\
  exists e,
    translate_batch (H := model_pool echo_engine in_order) binding_defaults
      (fresh_pool no_files) (PyList [PyList [PyStr "hello"]; PyNone; PyList [PyInt 1]])
      PyNone 0 2 1 (S754_zero false) 250 1 false false false 1 (S754_zero false)
    = (fresh_pool no_files, Raise e)
    /\
    forall pre post,
      [PyList [PyStr "hello"]; PyNone; PyList [PyInt 1]] = (pre ++ PyNone :: post)%list ->
      (forall h, In h pre -> token_list h) ->
      e = invalid_argument "Invalid None value in input list".
Proof.
  split; [right; left; reflexivity|].
  exact (@translate_batch_none_in_source pool (model_pool echo_engine in_order)
           binding_defaults (fresh_pool no_files)
           [PyList [PyStr "hello"]; PyNone; PyList [PyInt 1]] PyNone
           0 2 1 (S754_zero false) 250 1 false false false 1 (S754_zero false)
           (or_intror (or_introl eq_refl))).
Defined.

Lemma translate_file_keeps_attention_defaults_witness :
  return_attention binding_defaults = false /\
  return_alternatives binding_defaults = false /\
  exists read_size options,
    translate_file (H := model_pool echo_engine in_order) binding_defaults
      (fresh_pool (one_file "in" sample_lines)) "in" "out"
      2 3 2 1 (S754_zero false) 250 1 true true 4 (S754_zero false)
    = count_to_py
        (consume_text_file (TranslatorPool := model_pool echo_engine in_order) (fresh_pool (one_file "in" sample_lines)) "in" "out"
           read_size options true)
    /\ return_attention options = return_attention binding_defaults
    /\ return_alternatives options = return_alternatives binding_defaults
    /\ return_attention options = false
    /\ return_alternatives options = false.
Proof.
  split; [reflexivity|]. split; [reflexivity|].
  exact (@translate_file_keeps_attention_defaults pool (model_pool echo_engine in_order)
           binding_defaults (fresh_pool (one_file "in" sample_lines)) "in" "out"
           2 3 2 1 (S754_zero false) 250 1 true true 4 (S754_zero false)
           eq_refl eq_refl).
Defined.

(** * More on the marshalling helpers *)

Close Scope string_scope.

Lemma cast_string_ok (h : pyobj) (x : string) :
  cast_string h = Ok x <->
  (exists cps, h = PyUnicode cps /\ utf8_encode cps = Some x) \/ h = PyBytes x.
Proof.
  split.
  - destruct h; simpl; intros E; try discriminate.
    + destruct (utf8_encode cps) as [y|] eqn:Ey; [|discriminate].
      injection E as <-. left. now exists cps.
    + injection E as <-. now right.
  - intros [(cps & -> & E) | ->]; simpl; [now rewrite E | reflexivity].
Qed.

Lemma cast_items_returns (items : list pyobj) :
  forall v, cast_items items = Ok v <->
            Forall2 (fun h x => cast_string h = Ok x) items v.
Proof.
  induction items as [|h rest IH]; simpl; intros v.
  - split; [intros E; injection E as <-; constructor | intros F; now inversion F].
  - split.
    + destruct (cast_string h) as [x|e] eqn:Eh; simpl; [|discriminate].
      destruct (cast_items rest) as [w|e] eqn:Er; simpl; [|discriminate].
      intros E. injection E as <-. constructor; [assumption | now apply IH].
    + intros F. inversion F as [|h' x rest' w Hh Hrest]; subst.
      rewrite Hh. apply IH in Hrest. now rewrite Hrest.
Qed.

Lemma cast_items_raise_inv (items : list pyobj) (e : exn) :
  cast_items items = Raise e ->
  exists h, In h items /\ cast_string h = Raise cast_error.
Proof.
  induction items as [|h rest IH]; simpl; [discriminate|].
  destruct (cast_string h) as [x|e'] eqn:Eh; simpl.
  - destruct (cast_items rest) as [w|e'']; simpl; [discriminate|].
    intros X. destruct (IH X) as (h' & Hin & Hc).
    exists h'. split; [now right | assumption].
  - intros _. exists h. split; [now left|].
    destruct h; simpl in Eh |- *; try reflexivity; try discriminate.
    now destruct (utf8_encode cps).
Qed.

Lemma py_len_raises (o : pyobj) (e : exn) :
  py_len o = Raise e -> e = type_error.
Proof.
  destruct o; simpl; intros E; try discriminate; now injection E as <-.
Qed.

Lemma string_vector_reads_back (v : list string) (l : pyobj) :
  std_vector_to_py_list_string v = Ok l -> py_list_to_std_vector l = Ok v.
Proof.
  unfold std_vector_to_py_list_string.
  destruct (for_each STR_TYPE v) as [items|e] eqn:E; simpl; [|discriminate].
  intros X. injection X as <-.
  destruct (str_items_sentence _ _ E) as (sentence & -> & Es).
  fold (py_sentence sentence). now rewrite py_list_to_std_vector_sentence, Es.
Qed.

Lemma string_vector_built (v : list string) :
  Forall valid_utf8 v -> exists l, std_vector_to_py_list_string v = Ok l.
Proof.
  intros Hv. unfold std_vector_to_py_list_string.
  destruct (str_items_total v Hv) as (items & ->). simpl. now eexists.
Qed.

(** X1.  A vector of UTF-8 strings is turned into a Python list, and that
    list read back is the vector it was. *)
Theorem string_vector_round_trip (v : list string)
    (Hvalid : Forall valid_utf8 v) :
  exists l,
    std_vector_to_py_list_string v = Ok l /\
    py_list_to_std_vector l = Ok v.
Proof.
  destruct (string_vector_built v Hvalid) as (l & El).
  exists l. split; [assumption | now apply string_vector_reads_back].
Qed.

(** X3.  [py_list_to_std_vector] returns [v] exactly when the object has a
    length, can be iterated, and its items are, in order, [str] objects
    whose UTF-8 bytes are the strings of [v] or [bytes] objects that hold
    them. *)
Theorem py_list_to_std_vector_returns (l : pyobj) (v : list string) :
  py_list_to_std_vector l = Ok v <->
  (exists n, py_len l = Ok n) /\
  exists items,
    py_iter l = Ok items /\
    Forall2 (fun h x =>
               (exists cps, h = PyUnicode cps /\ utf8_encode cps = Some x) \/
               h = PyBytes x) items v.
Proof.
  unfold py_list_to_std_vector. split.
  - destruct (py_len l) as [n|e]; simpl; [|discriminate].
    destruct (py_iter l) as [items|e]; simpl; [|discriminate].
    intros E. split; [now exists n|]. exists items. split; [reflexivity|].
    apply cast_items_returns in E.
    eapply Forall2_impl; [|exact E]. intros h x. apply cast_string_ok.
  - intros [(n & ->) (items & -> & F)]. simpl.
    apply cast_items_returns.
    eapply Forall2_impl; [|exact F]. intros h x. apply cast_string_ok.
Qed.

(** X4.  [py_list_to_std_vector] fails in two ways only: with the type
    error of an object that has no length, or with the cast error of an
    item that is not a string. *)
Theorem py_list_to_std_vector_fails (l : pyobj) (e : exn)
    (Hfails : py_list_to_std_vector l = Raise e) :
  (e = type_error /\ py_len l = Raise type_error) \/
  (e = cast_error /\
   exists items h, py_iter l = Ok items /\ In h items /\
                   cast_string h = Raise cast_error).
Proof.
  unfold py_list_to_std_vector in Hfails.
  destruct (py_len l) as [n|e'] eqn:El; simpl in Hfails.
  - destruct (py_iter_of_len _ _ El) as (items & Ei & _).
    rewrite Ei in Hfails. simpl in Hfails. right.
    split; [now apply cast_items_raises in Hfails|].
    destruct (cast_items_raise_inv _ _ Hfails) as (h & Hin & Hc).
    now exists items, h.
  - injection Hfails as <-. left.
    rewrite (py_len_raises _ _ El) in *. now split.
Qed.

Lemma batch_items_app (a b : list pyobj) (optional : bool) :
  batch_items (a ++ b) optional =
  (x <- batch_items a optional ;;
   y <- batch_items b optional ;;
   Ok (x ++ y)).
Proof.
  induction a as [|h a IH]; simpl.
  - destruct (batch_items b optional); reflexivity.
  - destruct (if is_none h then _ else _) as [x|e]; simpl; [|reflexivity].
    rewrite IH. destruct (batch_items a optional) as [v|e]; simpl; [|reflexivity].
    destruct (batch_items b optional); reflexivity.
Qed.

(** X5.  Entries are converted in order and the first one that fails
    decides the error: after entries that convert, an entry whose own
    conversion raises [e] makes the whole conversion raise [e], whatever
    follows it. *)
Theorem batch_to_vector_first_failure
    (pre post : list pyobj) (h : pyobj) (optional : bool)
    (v : list (list string)) (e : exn)
    (Hpre : batch_to_vector (PyList pre) optional = Ok v)
    (Hfails : batch_to_vector (PyList [h]) optional = Raise e) :
  batch_to_vector (PyList (pre ++ h :: post)) optional = Raise e.
Proof.
  rewrite batch_to_vector_list in *.
  rewrite batch_items_app, Hpre. simpl. simpl in Hfails.
  destruct (if is_none h then _ else _) as [x|e']; simpl in *; [discriminate|].
  exact Hfails.
Qed.

(** X6.  Without [optional], a list converts to [v] exactly when its
    entries convert one by one to the sequences of [v]; an entry that is
    [None] does not. *)
Theorem batch_to_vector_required_returns
    (entries : list pyobj) (v : list (list string)) :
  batch_to_vector (PyList entries) false = Ok v <->
  Forall2 (fun h x => py_list_to_std_vector h = Ok x) entries v.
Proof.
  rewrite batch_to_vector_list. revert v.
  induction entries as [|h rest IH]; intros v; simpl.
  - split; [intros E; injection E as <-; constructor | intros F; now inversion F].
  - split.
    + destruct (is_none h) eqn:En; simpl; [discriminate|].
      destruct (py_list_to_std_vector h) as [x|e] eqn:Eh; simpl; [|discriminate].
      destruct (batch_items rest false) as [w|e]; simpl; [|discriminate].
      intros E. injection E as <-. constructor; [assumption | now apply IH].
    + intros F. inversion F as [|h' x rest' w Hh Hrest]; subst.
      apply IH in Hrest. rewrite Hrest.
      destruct (is_none h) eqn:En; [destruct h; discriminate|].
      now rewrite Hh.
Qed.

(** X7.  With [optional], a list converts to [v] exactly when each entry
    either is [None] and gives the empty sequence or converts to its
    sequence of [v]. *)
Theorem batch_to_vector_optional_returns
    (entries : list pyobj) (v : list (list string)) :
  batch_to_vector (PyList entries) true = Ok v <->
  Forall2 (fun h x => if is_none h then x = [] else py_list_to_std_vector h = Ok x)
          entries v.
Proof.
  rewrite batch_to_vector_list. revert v.
  induction entries as [|h rest IH]; intros v; simpl.
  - split; [intros E; injection E as <-; constructor | intros F; now inversion F].
  - split.
    + destruct (is_none h) eqn:En; simpl.
      * destruct (batch_items rest true) as [w|e]; simpl; [|discriminate].
        intros E. injection E as <-. constructor; [now rewrite En | now apply IH].
      * destruct (py_list_to_std_vector h) as [x|e] eqn:Eh; simpl; [|discriminate].
        destruct (batch_items rest true) as [w|e]; simpl; [|discriminate].
        intros E. injection E as <-. constructor; [now rewrite En | now apply IH].
    + intros F. inversion F as [|h' x rest' w Hh Hrest]; subst.
      apply IH in Hrest. rewrite Hrest.
      destruct (is_none h); [now subst x | now rewrite Hh].
Qed.

Lemma batch_items_relax (items : list pyobj) :
  forall v, batch_items items false = Ok v -> batch_items items true = Ok v.
Proof.
  induction items as [|h rest IH]; simpl; intros v E; [assumption|].
  destruct (is_none h); simpl in E; [discriminate|].
  destruct (py_list_to_std_vector h) as [x|e]; simpl in E |- *; [|discriminate].
  destruct (batch_items rest false) as [w|e]; simpl in E; [|discriminate].
  now rewrite (IH w eq_refl).
Qed.

(** X8.  [optional] only relaxes: whatever converts without it converts to
    the same vectors with it. *)
Theorem batch_to_vector_optional_relaxes
    (l : pyobj) (v : list (list string))
    (Hstrict : batch_to_vector l false = Ok v) :
  batch_to_vector l true = Ok v.
Proof.
  unfold batch_to_vector in *. destruct (is_none l); [assumption|].
  destruct (py_len l) as [n|e]; simpl in *; [|discriminate].
  destruct (py_iter l) as [items|e]; simpl in *; [|discriminate].
  now apply batch_items_relax.
Qed.

Lemma py_list_to_std_vector_str (w : list N) :
  py_list_to_std_vector (PyUnicode w) =
  match characters w with
  | Some cs => Ok cs
  | None => Raise cast_error
  end.
Proof.
  unfold py_list_to_std_vector, characters. simpl.
  induction w as [|c w IH]; simpl; [reflexivity|].
  destruct (utf8_encode_one c) as [bytes|]; simpl; [|reflexivity].
  rewrite IH. now destruct (traverse _ w).
Qed.

(** X9.  A sentence given as a flat list of [str] tokens, where a list of
    sentences is expected, is not refused: each token is taken for a
    sentence and split into its characters, one token per code point. *)
Theorem flat_token_list_is_split
    (sentence : list (list N)) (v : list (list string)) (optional : bool)
    (Hchars : traverse characters sentence = Some v) :
  batch_to_vector (py_sentence sentence) optional = Ok v.
Proof.
  unfold py_sentence. rewrite batch_to_vector_list. revert v Hchars.
  induction sentence as [|w ws IH]; simpl; intros v E.
  - now injection E as <-.
  - rewrite py_list_to_std_vector_str.
    destruct (characters w) as [cs|]; [|discriminate].
    destruct (traverse characters ws) as [vs|]; [|discriminate].
    injection E as <-. simpl. now rewrite (IH vs eq_refl).
Qed.

(** X2.  A batch of vectors of UTF-8 strings is turned, vector by vector,
    into Python lists, and the list of these read back by [batch_to_vector]
    is the batch it was, with or without [optional]. *)
Theorem batch_round_trip (b : list (list string)) (optional : bool)
    (Hvalid : Forall (Forall valid_utf8) b) :
  exists ls,
    for_each std_vector_to_py_list_string b = Ok ls /\
    batch_to_vector (PyList ls) optional = Ok b.
Proof.
  induction Hvalid as [|x b Hx _ IH].
  - now exists [].
  - destruct IH as (ls & Els & Eb).
    destruct (string_vector_built x Hx) as (l & El).
    exists (l :: ls). simpl. rewrite El, Els. split; [reflexivity|].
    rewrite batch_to_vector_list in *. simpl.
    rewrite (string_vector_reads_back _ _ El).
    assert (En : is_none l = false).
    { unfold std_vector_to_py_list_string in El.
      destruct (for_each STR_TYPE x); simpl in El; [|discriminate].
      now injection El as <-. }
    rewrite En. simpl. now rewrite Eb.
Qed.

(** * More on [TranslatorWrapper], for every translator pool *)

Lemma batch_to_vector_zero_length (l : pyobj) (optional : bool) :
  py_len l = Ok 0 -> batch_to_vector l optional = Ok [].
Proof.
  intros El. unfold batch_to_vector.
  rewrite (py_len_not_none _ _ El), El. simpl.
  destruct (py_iter_of_len _ _ El) as (items & -> & Hlen). simpl.
  destruct items; [reflexivity | discriminate Hlen].
Qed.

Section WrapperMore.

Context {P : Type} `{TranslatorPool P}.
Variable default_options : TranslationOptions.
Variable pool : P.

(** X10.  Any source of length 0, be it an empty list, tuple, string or
    dictionary, gives the empty list with the pool left as it was. *)
Theorem translate_batch_zero_length_source
    (source target_prefix : pyobj)
    (mbs bs nh : N) (lp : spec_float) (maxl minl : N)
    (vmap ra ralt : bool) (topk : N) (temp : spec_float)
    (Hempty : py_len source = Ok 0) :
  translate_batch default_options pool source target_prefix
    mbs bs nh lp maxl minl vmap ra ralt topk temp = (pool, Ok (PyList [])).
Proof.
  unfold translate_batch. rewrite Hempty.
  now destruct (is_none source).
Qed.

(** X11.  A source that is not [None] and has no length, a number for one,
    makes the call raise the error of [py::len] with the pool left as it
    was. *)
Theorem translate_batch_unsized_source
    (source target_prefix : pyobj) (e : exn)
    (mbs bs nh : N) (lp : spec_float) (maxl minl : N)
    (vmap ra ralt : bool) (topk : N) (temp : spec_float)
    (Hsome : is_none source = false)
    (Hunsized : py_len source = Raise e) :
  translate_batch default_options pool source target_prefix
    mbs bs nh lp maxl minl vmap ra ralt topk temp = (pool, Raise e)
  /\ e = type_error.
Proof.
  unfold translate_batch. rewrite Hsome, Hunsized. split; [reflexivity|].
  now apply py_len_raises in Hunsized.
Qed.

(** X12.  The pool is only used once both arguments have been converted:
    a call that leaves the pool in another state than it found it had a
    non-empty source and a target prefix that both converted, and returns
    what the pool made of them. *)
Theorem translate_batch_pool_use
    (source target_prefix : pyobj)
    (mbs bs nh : N) (lp : spec_float) (maxl minl : N)
    (vmap ra ralt : bool) (topk : N) (temp : spec_float)
    (Hchanged :
       fst (translate_batch default_options pool source target_prefix
              mbs bs nh lp maxl minl vmap ra ralt topk temp) <> pool) :
  exists n source_input target_prefix_input,
    py_len source = Ok (S n) /\
    batch_to_vector source false = Ok source_input /\
    List.length source_input = S n /\
    batch_to_vector target_prefix true = Ok target_prefix_input /\
    translate_batch default_options pool source target_prefix
      mbs bs nh lp maxl minl vmap ra ralt topk temp =
    results_to_py
      (post pool source_input target_prefix_input
         (mkOptions mbs bs lp topk temp maxl minl nh vmap ra ralt)).
Proof.
  destruct (is_none source) eqn:En.
  { exfalso. apply Hchanged. unfold translate_batch. now rewrite En. }
  destruct (py_len source) as [[|n]|e] eqn:El.
  - exfalso. apply Hchanged. unfold translate_batch. now rewrite En, El.
  - destruct (batch_to_vector source false) as [si|e] eqn:Es.
    2:{ exfalso. apply Hchanged.
        now rewrite (translate_batch_source_raises default_options pool
                       source target_prefix n e
                       mbs bs nh lp maxl minl vmap ra ralt topk temp El Es). }
    destruct (batch_to_vector target_prefix true) as [ti|e] eqn:Et.
    2:{ exfalso. apply Hchanged.
        now rewrite (translate_batch_prefix_raises default_options pool
                       source target_prefix n e si
                       mbs bs nh lp maxl minl vmap ra ralt topk temp El Es Et). }
    exists n, si, ti. repeat split.
    + pose proof (batch_to_vector_length _ _ _ En Es) as E.
      rewrite El in E. now injection E as ->.
    + now apply translate_batch_reaches_pool with (n := n).
  - exfalso. apply Hchanged. unfold translate_batch. now rewrite En, El.
Qed.

(** X16.  A target prefix of length 0 is no target prefix: the call does
    what it does with [None]. *)
Theorem translate_batch_zero_length_prefix
    (source target_prefix : pyobj)
    (mbs bs nh : N) (lp : spec_float) (maxl minl : N)
    (vmap ra ralt : bool) (topk : N) (temp : spec_float)
    (Hempty : py_len target_prefix = Ok 0) :
  translate_batch default_options pool source target_prefix
    mbs bs nh lp maxl minl vmap ra ralt topk temp =
  translate_batch default_options pool source PyNone
    mbs bs nh lp maxl minl vmap ra ralt topk temp.
Proof.
  unfold translate_batch.
  now rewrite (batch_to_vector_zero_length target_prefix true Hempty).
Qed.

(** X15.  Leaving [read_batch_size] at 0 is the same as giving it the value
    of [max_batch_size]. *)
Theorem translate_file_unspecified_read_size
    (in_file out_file : string) (mbs bs nh : N) (lp : spec_float)
    (maxl minl : N) (vmap with_scores : bool) (topk : N) (temp : spec_float) :
  translate_file default_options pool in_file out_file
    mbs 0 bs nh lp maxl minl vmap with_scores topk temp =
  translate_file default_options pool in_file out_file
    mbs mbs bs nh lp maxl minl vmap with_scores topk temp.
Proof.
  rewrite !translate_file_reaches_pool. simpl (0 =? 0)%N. cbv iota.
  destruct (mbs =? 0)%N eqn:E; reflexivity.
Qed.

End WrapperMore.

(** * What Python gets for a result *)

Lemma map_injective {A B : Type} (f : A -> B) :
  (forall x y, f x = f y -> x = y) ->
  forall l l', map f l = map f l' -> l = l'.
Proof.
  intros Hf. induction l as [|x l IH]; intros [|y l'] E; try discriminate.
  - reflexivity.
  - simpl in E. injection E as E1 E2. f_equal; [now apply Hf | now apply IH].
Qed.

Lemma std_vector_to_py_list_float_injective (v w : list spec_float) :
  std_vector_to_py_list_float v = std_vector_to_py_list_float w -> v = w.
Proof.
  unfold std_vector_to_py_list_float. intros E. injection E as E.
  revert E. apply map_injective. intros x y E. now injection E.
Qed.

(** X13.  What Python finds in a converted result.  For a result whose
    vectors go together and whose tokens are UTF-8 the value is built; it
    is a list with one dictionary per hypothesis, in order, with under
    "score" the score of the hypothesis, under "tokens" [str] objects
    whose UTF-8 bytes are its tokens, and under "attention" its attention
    matrix when the result has attention, nothing when it has none. *)
Theorem result_to_py_entries (r : TranslationResult)
    (Hwf : well_formed_result r) :
  exists out, result_to_py r = Ok out /\ shows_result r out.
Proof.
  destruct (result_to_py_total r Hwf) as (out & E).
  exists out. split; [assumption | now apply result_to_py_shows].
Qed.

Lemma nth_error_same_length {A : Type} (l l' : list A) (n : nat) :
  List.length l = n -> List.length l' = n ->
  (forall i, i < n -> nth_error l i = nth_error l' i) -> l = l'.
Proof.
  intros Hl Hl' Hnth. apply nth_error_ext. intros i.
  destruct (Nat.lt_ge_cases i n) as [Hi | Hi]; [now apply Hnth|].
  rewrite (proj2 (nth_error_None l i)) by lia.
  now rewrite (proj2 (nth_error_None l' i)) by lia.
Qed.

Lemma shows_hypothesis_same (r1 r2 : TranslationResult) (i : nat) (h : pyobj) :
  shows_hypothesis r1 i h -> shows_hypothesis r2 i h ->
  nth_error (scores r1) i = nth_error (scores r2) i /\
  nth_error (hypotheses r1) i = nth_error (hypotheses r2) i /\
  has_attention r1 = has_attention r2 /\
  (has_attention r1 = true -> nth_error (attention r1) i = nth_error (attention r2) i).
Proof.
  intros ((s1 & Es1 & Ds1) & (t1 & w1 & Et1 & Dt1 & Eu1) & Ha1)
         ((s2 & Es2 & Ds2) & (t2 & w2 & Et2 & Dt2 & Eu2) & Ha2).
  split; [|split].
  - rewrite Ds1 in Ds2. injection Ds2 as <-. congruence.
  - rewrite Dt1 in Dt2. injection Dt2 as Ew.
    apply map_injective in Ew; [|intros x y E; now injection E].
    subst w2. congruence.
  - destruct (has_attention r1), (has_attention r2).
    + split; [reflexivity|]. intros _.
      destruct Ha1 as (m1 & Em1 & Dm1), Ha2 as (m2 & Em2 & Dm2).
      rewrite Dm1 in Dm2. injection Dm2 as Em.
      apply map_injective in Em.
      * congruence.
      * intros x y E. injection E as E. revert E. apply map_injective.
        intros a b E. now injection E.
    + destruct Ha1 as (m1 & _ & Dm1). congruence.
    + destruct Ha2 as (m2 & _ & Dm2). congruence.
    + split; [reflexivity | discriminate].
Qed.

(** X14.  Nothing of a result is lost on the way to Python: two results
    whose vectors go together and for which the same Python list is built
    are the same result. *)
Theorem result_to_py_injective (r1 r2 : TranslationResult) (out : pyobj)
    (H1 : consistent_result r1) (H2 : consistent_result r2)
    (Hout1 : result_to_py r1 = Ok out)
    (Hout2 : result_to_py r2 = Ok out) :
  r1 = r2.
Proof.
  apply result_to_py_shows in Hout1 as (hyps & -> & Hn1 & Hs1).
  apply result_to_py_shows in Hout2 as (hyps' & E & Hn2 & Hs2).
  injection E as <-.
  assert (Hsame := fun i h Eh => shows_hypothesis_same r1 r2 i h (Hs1 i h Eh) (Hs2 i h Eh)).
  assert (Hi : forall i, i < List.length hyps -> exists h, nth_error hyps i = Some h).
  { intros i Hi. destruct (nth_error hyps i) eqn:E; [now eexists|].
    apply nth_error_None in E. lia. }
  clear Hs1 Hs2.
  destruct r1 as [h1 s1 a1], r2 as [h2 s2 a2].
  unfold consistent_result, num_hypotheses, has_attention in *. simpl in *.
  destruct H1 as [Ls1 La1], H2 as [Ls2 La2].
  f_equal.
  - apply nth_error_same_length with (n := List.length hyps); try congruence.
    intros i Hlt. destruct (Hi i Hlt) as (h & Eh). now apply (Hsame i h Eh).
  - apply nth_error_same_length with (n := List.length hyps); try congruence.
    intros i Hlt. destruct (Hi i Hlt) as (h & Eh). now apply (Hsame i h Eh).
  - destruct hyps as [|h0 hyps].
    + simpl in *.
      assert (a1 = []) by (destruct La1; [assumption | apply length_zero_iff_nil; lia]).
      assert (a2 = []) by (destruct La2; [assumption | apply length_zero_iff_nil; lia]).
      congruence.
    + destruct (Hsame 0 h0 eq_refl) as (_ & _ & Ha & _).
      destruct a1 as [|m1 a1], a2 as [|m2 a2]; try discriminate Ha; [reflexivity|].
      destruct La1 as [La1 | La1]; [discriminate|].
      destruct La2 as [La2 | La2]; [discriminate|].
      apply nth_error_same_length with (n := List.length (h0 :: hyps)); try congruence.
      intros i Hlt. destruct (Hi i Hlt) as (h & Eh).
      now apply (Hsame i h Eh).
Qed.

(** X17.  [optional] matters for [None] entries only: on a list without
    one, both conversions give the same vectors or raise the same error. *)
Theorem batch_to_vector_without_none (entries : list pyobj)
    (Hnone : ~ In PyNone entries) :
  batch_to_vector (PyList entries) false = batch_to_vector (PyList entries) true.
Proof.
  rewrite !batch_to_vector_list.
  induction entries as [|h rest IH]; simpl; [reflexivity|].
  rewrite IH by (intros Hin; apply Hnone; now right).
  destruct (is_none h) eqn:En; [|reflexivity].
  exfalso. apply Hnone. left. destruct h; (discriminate En || reflexivity).
Qed.

(** ** The further theorems at sample inputs *)

Open Scope string_scope.

Lemma py_list_to_std_vector_fails_witness :
  py_list_to_std_vector (PyList [PyStr "a"; PyInt 1]) = Raise cast_error /\
  ((cast_error = type_error /\
    py_len (PyList [PyStr "a"; PyInt 1]) = Raise type_error) \/
   (cast_error = cast_error /\
    exists items h, py_iter (PyList [PyStr "a"; PyInt 1]) = Ok items /\
                    In h items /\ cast_string h = Raise cast_error)).
Proof.
  split; [reflexivity|].
  exact (py_list_to_std_vector_fails (PyList [PyStr "a"; PyInt 1]) cast_error eq_refl).
Defined.

Lemma batch_to_vector_first_failure_witness :
  batch_to_vector (PyList [PyList [PyStr "a"]]) false = Ok [["a"]] /\
  batch_to_vector (PyList [PyList [PyInt 1]]) false = Raise cast_error /\
  batch_to_vector (PyList [PyList [PyStr "a"]; PyList [PyInt 1]; PyNone]) false
  = Raise cast_error.
Proof.
  split; [reflexivity|]. split; [reflexivity|].
  exact (batch_to_vector_first_failure [PyList [PyStr "a"]] [PyNone]
           (PyList [PyInt 1]) false [["a"]] cast_error eq_refl eq_refl).
Defined.

Lemma batch_to_vector_optional_relaxes_witness :
  batch_to_vector sample_source false = Ok [["hello"; "world"]; ["foo"]; ["bar"]] /\
  batch_to_vector sample_source true = Ok [["hello"; "world"]; ["foo"]; ["bar"]].
Proof.
  split; [reflexivity|].
  exact (batch_to_vector_optional_relaxes sample_source
           [["hello"; "world"]; ["foo"]; ["bar"]] eq_refl).
Defined.

Lemma batch_to_vector_without_none_witness :
  ~ In PyNone [PyList [PyStr "a"]; PyList [PyInt 1]] /\
  batch_to_vector (PyList [PyList [PyStr "a"]; PyList [PyInt 1]]) false =
  batch_to_vector (PyList [PyList [PyStr "a"]; PyList [PyInt 1]]) true.
Proof.
  assert (Hnone : ~ In PyNone [PyList [PyStr "a"]; PyList [PyInt 1]]).
  { intros [E | [E | []]]; discriminate E. }
  split; [exact Hnone|].
  exact (batch_to_vector_without_none [PyList [PyStr "a"]; PyList [PyInt 1]] Hnone).
Defined.

Lemma translate_batch_zero_length_source_witness :
  py_len (PyStr "") = Ok 0 /\
  translate_batch (H := model_pool echo_engine in_order) binding_defaults
    (fresh_pool no_files) (PyStr "") (PyInt 3)
    0 2 1 (S754_zero false) 250 1 false false false 1 (S754_zero false)
  = (fresh_pool no_files, Ok (PyList [])).
Proof.
  split; [reflexivity|].
  exact (@translate_batch_zero_length_source pool (model_pool echo_engine in_order)
           binding_defaults (fresh_pool no_files) (PyStr "") (PyInt 3)
           0 2 1 (S754_zero false) 250 1 false false false 1 (S754_zero false)
           eq_refl).
Defined.

Lemma translate_batch_unsized_source_witness :
  is_none (PyInt 3) = false /\
  py_len (PyInt 3) = Raise type_error /\
  translate_batch (H := model_pool echo_engine in_order) binding_defaults
    (fresh_pool no_files) (PyInt 3) PyNone
    0 2 1 (S754_zero false) 250 1 false false false 1 (S754_zero false)
  = (fresh_pool no_files, Raise type_error)
  /\ type_error = type_error.
Proof.
  split; [reflexivity|]. split; [reflexivity|].
  exact (@translate_batch_unsized_source pool (model_pool echo_engine in_order)
           binding_defaults (fresh_pool no_files) (PyInt 3) PyNone type_error
           0 2 1 (S754_zero false) 250 1 false false false 1 (S754_zero false)
           eq_refl eq_refl).
Defined.

Lemma sample_call_uses_pool :
  fst (translate_batch (H := model_pool echo_engine in_order) binding_defaults
         (fresh_pool no_files) sample_source PyNone
         0 2 1 (S754_zero false) 250 1 false false false 1 (S754_zero false))
  <> fresh_pool no_files.
Proof.
  intros E. apply (f_equal worker_log) in E. discriminate E.
Qed.

Lemma translate_batch_pool_use_witness :
  fst (translate_batch (H := model_pool echo_engine in_order) binding_defaults
         (fresh_pool no_files) sample_source PyNone
         0 2 1 (S754_zero false) 250 1 false false false 1 (S754_zero false))
  <> fresh_pool no_files /\
  exists n source_input target_prefix_input,
    py_len sample_source = Ok (S n) /\
    batch_to_vector sample_source false = Ok source_input /\
    List.length source_input = S n /\
    batch_to_vector PyNone true = Ok target_prefix_input /\
    translate_batch (H := model_pool echo_engine in_order) binding_defaults
      (fresh_pool no_files) sample_source PyNone
      0 2 1 (S754_zero false) 250 1 false false false 1 (S754_zero false) =
    results_to_py
      (post (TranslatorPool := model_pool echo_engine in_order)
         (fresh_pool no_files) source_input target_prefix_input
         (mkOptions 0 2 (S754_zero false) 1 (S754_zero false) 250 1 1 false false false)).
Proof.
  split; [exact sample_call_uses_pool|].
  exact (@translate_batch_pool_use pool (model_pool echo_engine in_order)
           binding_defaults (fresh_pool no_files) sample_source PyNone
           0 2 1 (S754_zero false) 250 1 false false false 1 (S754_zero false)
           sample_call_uses_pool).
Defined.

Lemma translate_batch_zero_length_prefix_witness :
  py_len (PyTuple []) = Ok 0 /\
  translate_batch (H := model_pool echo_engine in_order) binding_defaults
    (fresh_pool no_files) sample_source (PyTuple [])
    0 2 1 (S754_zero false) 250 1 false false false 1 (S754_zero false) =
  translate_batch (H := model_pool echo_engine in_order) binding_defaults
    (fresh_pool no_files) sample_source PyNone
    0 2 1 (S754_zero false) 250 1 false false false 1 (S754_zero false).
Proof.
  split; [reflexivity|].
  exact (@translate_batch_zero_length_prefix pool (model_pool echo_engine in_order)
           binding_defaults (fresh_pool no_files) sample_source (PyTuple [])
           0 2 1 (S754_zero false) 250 1 false false false 1 (S754_zero false)
           eq_refl).
Defined.

Lemma result_to_py_injective_witness :
  consistent_result (mkResult [["a"; "b"]; ["a"]] [S754_zero false; S754_zero true] []) /\
  result_to_py (mkResult [["a"; "b"]; ["a"]] [S754_zero false; S754_zero true] []) =
  Ok (PyList [PyDict [(PyStr "score", PyFloat (S754_zero false));
                      (PyStr "tokens", PyList [PyStr "a"; PyStr "b"])];
              PyDict [(PyStr "score", PyFloat (S754_zero true));
                      (PyStr "tokens", PyList [PyStr "a"])]]) /\
  mkResult [["a"; "b"]; ["a"]] [S754_zero false; S754_zero true] [] =
  mkResult [["a"; "b"]; ["a"]] [S754_zero false; S754_zero true] [].
Proof.
  assert (Hc : consistent_result
                 (mkResult [["a"; "b"]; ["a"]] [S754_zero false; S754_zero true] [])).
  { split; [reflexivity | now left]. }
  split; [exact Hc|]. split; [reflexivity|].
  exact (result_to_py_injective _ _ _ Hc Hc eq_refl eq_refl).
Defined.

Lemma string_vector_round_trip_witness :
  Forall valid_utf8 ["a"; String "195"%char (String "169"%char "")] /\
  exists l,
    std_vector_to_py_list_string ["a"; String "195"%char (String "169"%char "")] = Ok l /\
    py_list_to_std_vector l = Ok ["a"; String "195"%char (String "169"%char "")].
Proof.
  assert (Hv : Forall valid_utf8 ["a"; String "195"%char (String "169"%char "")]).
  { repeat constructor; discriminate. }
  split; [exact Hv|].
  exact (string_vector_round_trip _ Hv).
Defined.

Lemma batch_round_trip_witness :
  Forall (Forall valid_utf8) [["a"; String "195"%char (String "169"%char "")]; []] /\
  exists ls,
    for_each std_vector_to_py_list_string
      [["a"; String "195"%char (String "169"%char "")]; []] = Ok ls /\
    batch_to_vector (PyList ls) true =
    Ok [["a"; String "195"%char (String "169"%char "")]; []].
Proof.
  assert (Hv : Forall (Forall valid_utf8)
                 [["a"; String "195"%char (String "169"%char "")]; []]).
  { repeat constructor; discriminate. }
  split; [exact Hv|].
  exact (batch_round_trip _ true Hv).
Defined.

(** The sentence ["aé", "b"] given as a batch. *)
Lemma flat_token_list_is_split_witness :
  traverse characters [[97; 233]; [98]]%N =
  Some [["a"; String "195"%char (String "169"%char "")]; ["b"]] /\
  batch_to_vector (py_sentence [[97; 233]; [98]]%N) false =
  Ok [["a"; String "195"%char (String "169"%char "")]; ["b"]].
Proof.
  split; [reflexivity|].
  exact (flat_token_list_is_split [[97; 233]; [98]]%N _ false eq_refl).
Defined.

Lemma result_to_py_entries_witness :
  well_formed_result
    (mkResult [["a"; String "195"%char (String "169"%char "")]] [S754_zero false]
       [[[S754_zero false]; [S754_zero true]]]) /\
  exists out,
    result_to_py
      (mkResult [["a"; String "195"%char (String "169"%char "")]] [S754_zero false]
         [[[S754_zero false]; [S754_zero true]]]) = Ok out /\
    shows_result
      (mkResult [["a"; String "195"%char (String "169"%char "")]] [S754_zero false]
         [[[S754_zero false]; [S754_zero true]]]) out.
Proof.
  assert (Hwf : well_formed_result
                  (mkResult [["a"; String "195"%char (String "169"%char "")]]
                     [S754_zero false] [[[S754_zero false]; [S754_zero true]]])).
  { split; [split; [reflexivity | now right]|].
    repeat constructor; discriminate. }
  split; [exact Hwf|].
  exact (result_to_py_entries _ Hwf).
Defined.
